(** * gen_waveforms.py: min/max downsampling with clipping flags

    A shallow embedding of [visualize_waveform] (src/gen_waveforms.py) and
    the properties of its reducer, time axis and error handling.

    Modelling conventions.
    - Decoded samples are finite floating-point numbers; comparisons,
      [np.max], [np.min] and [np.abs] are exact on them, so a sample is a
      rational number ([Q]).  Not-a-number and infinite samples are outside
      the model, and so is the rounding of [np.linspace] and of the clip
      constant: both are taken in exact arithmetic.
    - Python integers are [Z]; list positions and lengths are [nat].
      [int(total_samples / target_points)] is the truncated true quotient of
      two non-negative integers, taken here as integer division.
    - Exceptions are values of [result]; [print] and [plt.savefig] act on an
      explicit [world]. *)

From Stdlib Require Import List ZArith QArith Qabs Lia Bool PeanoNat.
Import ListNotations.

Local Open Scope nat_scope.

(** ** Exceptions *)

Inductive exn : Type :=
| IndexError
| ValueError.

Inductive result (A : Type) : Type :=
| Ok (a : A)
| Raise (e : exn).

Arguments Ok {A} a.
Arguments Raise {A} e.

Definition bind {A B : Type} (m : result A) (k : A -> result B) : result B :=
  match m with
  | Ok a => k a
  | Raise e => Raise e
  end.

Notation "x <- m ;; k" := (bind m (fun x => k))
  (at level 61, m at next level, right associativity).

(** A [for] loop whose body may raise: the state is threaded through the
    iterations, and the first exception leaves the loop. *)
Fixpoint for_each {A S : Type} (body : S -> A -> result S) (xs : list A) (st : S)
  : result S :=
  match xs with
  | [] => Ok st
  | x :: rest => st' <- body st x ;; for_each body rest st'
  end.

(** ** Python and NumPy primitives *)

(** [range(start, stop, step)] for a non-negative start; a zero step raises
    [ValueError]. *)
Definition range_len (start stop step : nat) : nat :=
  (stop - start + step - 1) / step.

Definition py_range (start stop step : nat) : result (list nat) :=
  match step with
  | O => Raise ValueError
  | _ => Ok (map (fun k => start + k * step) (seq 0 (range_len start stop step)))
  end.

(** [xs[a:b]] for [0 <= a <= b]: slicing clamps to the length and never raises. *)
Definition slice {A : Type} (a b : nat) (xs : list A) : list A :=
  firstn (b - a) (skipn a xs).

(** [enumerate(xs)] *)
Definition enumerate {A : Type} (xs : list A) : list (nat * A) :=
  combine (seq 0 (length xs)) xs.

(** [rows[i].append(x)]: indexing an absent row raises [IndexError]. *)
Fixpoint append_at {A : Type} (i : nat) (x : A) (rows : list (list A)) {struct rows}
  : result (list (list A)) :=
  match rows, i with
  | [], _ => Raise IndexError
  | row :: rest, O => Ok ((row ++ [x]) :: rest)
  | row :: rest, S i' => rest' <- append_at i' x rest ;; Ok (row :: rest')
  end.

Definition pick_max (m s : Q) : Q := if Qle_bool m s then s else m.
Definition pick_min (m s : Q) : Q := if Qle_bool s m then s else m.

Definition amax (x : Q) (rest : list Q) : Q := fold_left pick_max rest x.
Definition amin (x : Q) (rest : list Q) : Q := fold_left pick_min rest x.

(** [np.max] and [np.min] raise [ValueError] on an empty array. *)
Definition np_max (w : list Q) : result Q :=
  match w with
  | [] => Raise ValueError
  | x :: rest => Ok (amax x rest)
  end.

Definition np_min (w : list Q) : result Q :=
  match w with
  | [] => Raise ValueError
  | x :: rest => Ok (amin x rest)
  end.

Definition np_abs (w : list Q) : list Q := map Qabs w.

Definition np_any (bs : list bool) : bool := existsb (fun b => b) bs.

(** [w >= c], elementwise *)
Definition np_ge (w : list Q) (c : Q) : list bool :=
  map (fun s => Qle_bool c s) w.

(** [np.linspace(start, stop, num)] with the default [endpoint=True]: the
    step is [(stop - start) / (num - 1)], and for [num > 1] the last entry is
    overwritten with [stop]. *)
Definition linspace (start stop : Q) (num : nat) : list Q :=
  match num with
  | O => []
  | 1 => [start]
  | S m =>
      let step := ((stop - start) / inject_Z (Z.of_nat m))%Q in
      map (fun k => (inject_Z (Z.of_nat k) * step + start)%Q) (seq 0 m) ++ [stop]
  end.

(** ** The audio file, as [soundfile] presents it *)

(** [sf.info]: channel count and sample rate are positive; the frame count
    is the number of frames of the data.  A frame holds one sample per
    channel. *)
Record SoundFile : Type := {
  channels : positive;
  samplerate : positive;
  frames_data : list (list Q)
}.

Definition num_channels (f : SoundFile) : nat := Pos.to_nat (channels f).
Definition total_samples (f : SoundFile) : Z := Z.of_nat (length (frames_data f)).

(** Consecutive pieces of [size] elements, the last one possibly shorter. *)
Definition chunks {A : Type} (size : nat) (xs : list A) : list (list A) :=
  map (fun k => slice (k * size) (k * size + size) xs)
      (seq 0 (range_len 0 (length xs) size)).

(** [f.blocks(blocksize=n)]: the frames in order, [n] at a time. *)
Definition blocks (f : SoundFile) (blocksize : nat) : list (list (list Q)) :=
  chunks blocksize (frames_data f).

(** Column [i] of a block. *)
Definition column (i : nat) (block : list (list Q)) : list Q :=
  map (fun frame => nth i frame 0%Q) block.

(** [block.T] for a block of [ncols] channels (a one-dimensional block of a
    mono file is first reshaped to one column). *)
Definition transpose (ncols : nat) (block : list (list Q)) : list (list Q) :=
  map (fun i => column i block) (seq 0 ncols).

(** ** The reducer (lines 40-74) *)

Definition target_points : Z := 50000.

Definition downsample_factor (target total : Z) : Z :=
  if (total >? target)%Z then (total / target)%Z else 1%Z.

Definition chunk_size_samples (f : SoundFile) : Z := (Z.pos (samplerate f) * 5)%Z.

Definition clip_threshold : Q := (1 - (1 # 1000000))%Q.

Record reducer_state : Type := {
  downsampled_data : list (list Q);
  clipped_status : list (list bool)
}.

Definition init_state (n : nat) : reducer_state :=
  {| downsampled_data := repeat [] n; clipped_status := repeat [] n |}.

(** The window test of line 72. *)
Definition is_clipped (threshold : Q) (window : list Q) : bool :=
  np_any (np_ge (np_abs window) threshold).

(** Lines 65-74 for one window of channel [i]. *)
Definition window_step (threshold : Q) (i : nat) (st : reducer_state) (window : list Q)
  : result reducer_state :=
  if (0 <? length window)%nat then
    hi <- np_max window ;;
    data1 <- append_at i hi (downsampled_data st) ;;
    lo <- np_min window ;;
    data2 <- append_at i lo data1 ;;
    let c := is_clipped threshold window in
    clip1 <- append_at i c (clipped_status st) ;;
    clip2 <- append_at i c clip1 ;;
    Ok {| downsampled_data := data2; clipped_status := clip2 |}
  else Ok st.

(** Lines 64-74: the windows of one channel of one block. *)
Definition process_channel (threshold : Q) (factor : nat) (st : reducer_state)
  (ic : nat * list Q) : result reducer_state :=
  let (i, channel_data) := ic in
  js <- py_range 0 (length channel_data) factor ;;
  for_each (fun st j => window_step threshold i st (slice j (j + factor) channel_data))
           js st.

(** Lines 59-74: one block. *)
Definition process_block (threshold : Q) (factor ncols : nat) (st : reducer_state)
  (block : list (list Q)) : result reducer_state :=
  for_each (process_channel threshold factor) (enumerate (transpose ncols block)) st.

(** The reducer with its three configuration values explicit. *)
Definition reduce_blocks (threshold : Q) (factor chunk : nat) (f : SoundFile)
  : result reducer_state :=
  for_each (process_block threshold factor (num_channels f))
           (blocks f chunk) (init_state (num_channels f)).

Definition factor_of (f : SoundFile) : nat :=
  Z.to_nat (downsample_factor target_points (total_samples f)).

Definition chunk_of (f : SoundFile) : nat := Z.to_nat (chunk_size_samples f).

(** Lines 42-74 as the program runs them. *)
Definition reduce_stream (f : SoundFile) : result reducer_state :=
  reduce_blocks clip_threshold (factor_of f) (chunk_of f) f.

Definition mono (rate : positive) (samples : list Q) : SoundFile :=
  {| channels := 1; samplerate := rate; frames_data := map (fun s => [s]) samples |}.

(** ** The unblocked reference of the specification

    One accumulator per channel, fed frame by frame over the whole stream:
    running maximum, running minimum, the clip flag and the number of samples
    of the open window; the window is flushed when the count reaches the
    factor, and once more at the end of the stream if it is not empty. *)

Record accumulator : Type := {
  running_max : Q;
  running_min : Q;
  clip_flag : bool;
  count : nat
}.

Definition accumulate (threshold : Q) (acc : option accumulator) (v : Q) : accumulator :=
  match acc with
  | None =>
      {| running_max := v; running_min := v;
         clip_flag := Qle_bool threshold (Qabs v); count := 1 |}
  | Some a =>
      {| running_max := pick_max (running_max a) v;
         running_min := pick_min (running_min a) v;
         clip_flag := clip_flag a || Qle_bool threshold (Qabs v);
         count := S (count a) |}
  end.

Definition flush (a : accumulator) : list (Q * bool) :=
  [(running_max a, clip_flag a); (running_min a, clip_flag a)].

Fixpoint reference_channel (threshold : Q) (factor : nat) (acc : option accumulator)
  (samples : list Q) : list (Q * bool) :=
  match samples with
  | [] => match acc with
          | None => []
          | Some a => flush a
          end
  | v :: rest =>
      let a := accumulate threshold acc v in
      if count a =? factor
      then flush a ++ reference_channel threshold factor None rest
      else reference_channel threshold factor (Some a) rest
  end.

Definition unblocked_reference (threshold : Q) (factor : nat) (f : SoundFile)
  : list (list (Q * bool)) :=
  map (fun i => reference_channel threshold factor None (column i (frames_data f)))
      (seq 0 (num_channels f)).

(** The (value, is_clipped) points of the channels of a reducer state. *)
Definition series (st : reducer_state) : list (list (Q * bool)) :=
  map (fun dc => combine (fst dc) (snd dc))
      (combine (downsampled_data st) (clipped_status st)).

(** ** Time axis and plot (lines 93-116) *)

Definition index {A : Type} (xs : list A) (i : nat) : result A :=
  match nth_error xs i with
  | Some x => Ok x
  | None => Raise IndexError
  end.

(** [xs[-1]] *)
Definition index_last {A : Type} (xs : list A) : result A :=
  match xs with
  | [] => Raise IndexError
  | _ :: _ => index xs (length xs - 1)
  end.

(** [np.where(cond, np.nan, data)] on one-dimensional arrays: equal lengths,
    or one of them of length one, which is then repeated; any other pair of
    lengths raises [ValueError].  [None] stands for not-a-number. *)
Definition where_nan (cond : list bool) (data : list Q) : result (list (option Q)) :=
  let pick (c : bool) (v : Q) := if c then None else Some v in
  if length cond =? length data then
    Ok (map (fun cv => pick (fst cv) (snd cv)) (combine cond data))
  else match cond, data with
       | [c], _ => Ok (map (pick c) data)
       | _, [v] => Ok (map (fun c => pick c v) cond)
       | _, _ => Raise ValueError
       end.

(** [ax.plot(x, y)] and [ax.fill_between(x, 0, y)] reject arrays of
    different lengths. *)
Definition ax_plot (x : list Q) (y : list (option Q)) : result unit :=
  if length x =? length y then Ok tt else Raise ValueError.

Record axes_plot : Type := {
  xlim : Q * Q;
  non_clipped_data : list (option Q);
  clipped_data : list (option Q)
}.

Record figure : Type := {
  time_downsampled : list Q;
  axes : list axes_plot
}.

Definition total_duration (f : SoundFile) : Q :=
  (inject_Z (total_samples f) / inject_Z (Z.pos (samplerate f)))%Q.

(** Lines 93-95. *)
Definition time_axis (f : SoundFile) (st : reducer_state) : result (list Q) :=
  d0 <- index (downsampled_data st) 0 ;;
  let total_downsampled_points := length d0 in
  Ok (linspace 0%Q (total_duration f) total_downsampled_points).

(** Lines 97-116 for channel [i]. *)
Definition plot_channel (time : list Q) (st : reducer_state) (acc : list axes_plot)
  (i : nat) : result (list axes_plot) :=
  x0 <- index time 0 ;;
  x1 <- index_last time ;;
  channel_data <- index (downsampled_data st) i ;;
  channel_clipped <- index (clipped_status st) i ;;
  non_clipped <- where_nan channel_clipped channel_data ;;
  _ <- ax_plot time non_clipped ;;
  clipped <- where_nan (map negb channel_clipped) channel_data ;;
  _ <- ax_plot time clipped ;;
  Ok (acc ++ [{| xlim := (x0, x1);
                 non_clipped_data := non_clipped;
                 clipped_data := clipped |}]).

Definition build_figure (f : SoundFile) (st : reducer_state) : result figure :=
  time <- time_axis f st ;;
  axs <- for_each (plot_channel time st) (seq 0 (num_channels f)) [] ;;
  Ok {| time_downsampled := time; axes := axs |}.

(** ** [visualize_waveform] and its effects *)

Inductive message : Type :=
| FailedToFind
| ReadingChunks
| PlottingWaveforms
| SuccessfullyGenerated
| AnErrorOccurred (e : exn).

(** What a run can change: the lines printed so far and the image at the
    output path. *)
Record world : Type := {
  stdout : list message;
  output_png : option figure
}.

(** A command acts on the world and returns or raises. *)
Definition cmd (A : Type) : Type := world -> world * result A.

Definition ret {A : Type} (a : A) : cmd A := fun w => (w, Ok a).

Definition seq_cmd {A B : Type} (m : cmd A) (k : A -> cmd B) : cmd B :=
  fun w => match m w with
           | (w', Ok a) => k a w'
           | (w', Raise e) => (w', Raise e)
           end.

Notation "x <~ m ;; k" := (seq_cmd m (fun x => k))
  (at level 61, m at next level, right associativity).

Definition lift {A : Type} (r : result A) : cmd A := fun w => (w, r).

Definition print (m : message) : cmd unit :=
  fun w => ({| stdout := stdout w ++ [m]; output_png := output_png w |}, Ok tt).

Definition savefig (fig : figure) : cmd unit :=
  fun w => ({| stdout := stdout w; output_png := Some fig |}, Ok tt).

(** [try: body / except Exception as e: handler(e)]; the [finally] clause only
    closes the figure and is left out. *)
Definition try_except {A : Type} (body : cmd A) (handler : exn -> cmd A) : cmd A :=
  fun w => match body w with
           | (w', Ok a) => (w', Ok a)
           | (w', Raise e) => handler e w'
           end.

(** Lines 32-124, the body of the [try].  Creating the figure, laying it out
    and writing the image are taken to succeed. *)
Definition waveform_body (f : SoundFile) : cmd unit :=
  _ <~ print ReadingChunks ;;
  st <~ lift (reduce_stream f) ;;
  _ <~ print PlottingWaveforms ;;
  fig <~ lift (build_figure f st) ;;
  _ <~ savefig fig ;;
  print SuccessfullyGenerated.

(** The input is [None] when the input path does not exist. *)
Definition visualize_waveform (input : option SoundFile) : cmd unit :=
  match input with
  | None => print FailedToFind
  | Some f => try_except (waveform_body f) (fun e => print (AnErrorOccurred e))
  end.

Definition empty_world : world := {| stdout := []; output_png := None |}.

(** ** Auxiliary definitions for the proofs *)

(** [rows[i].extend(xs)], leaving the rows unchanged when [i] is out of
    range: the effect of the appends of [append_at] once they are known to
    succeed. *)
Fixpoint extend_at {A : Type} (i : nat) (xs : list A) (rows : list (list A))
  {struct rows} : list (list A) :=
  match rows, i with
  | [], _ => []
  | row :: rest, O => (row ++ xs) :: rest
  | row :: rest, S i' => row :: extend_at i' xs rest
  end.

(** The rows [g 0 .. g (n-1)]. *)
Definition rows_of {A : Type} (n : nat) (g : nat -> list A) : list (list A) :=
  map g (seq 0 n).

(** What one window adds to its channel: nothing if it is empty (line 66),
    else the maximum then the minimum, and the clip flag twice. *)
Definition points_of_window (w : list Q) : list Q :=
  match w with
  | [] => []
  | x :: rest => [amax x rest; amin x rest]
  end.

Definition flags_of_window (threshold : Q) (w : list Q) : list bool :=
  match w with
  | [] => []
  | _ :: _ => [is_clipped threshold w; is_clipped threshold w]
  end.

(** The state after the windows [ws] of channel [i] have been added. *)
Definition emit (threshold : Q) (i : nat) (ws : list (list Q)) (st : reducer_state)
  : reducer_state :=
  {| downsampled_data :=
       extend_at i (flat_map points_of_window ws) (downsampled_data st);
     clipped_status :=
       extend_at i (flat_map (flags_of_window threshold) ws) (clipped_status st) |}.

(** The windows of channel [i] in the order the loops visit them: block by
    block, each block cut into windows from its own first frame. *)
Definition emitted_windows (factor chunk : nat) (f : SoundFile) (i : nat)
  : list (list Q) :=
  flat_map (fun block => chunks factor (column i block)) (blocks f chunk).

Definition blocked_state (threshold : Q) (factor chunk : nat) (f : SoundFile)
  : reducer_state :=
  {| downsampled_data :=
       rows_of (num_channels f)
         (fun i => flat_map points_of_window (emitted_windows factor chunk f i));
     clipped_status :=
       rows_of (num_channels f)
         (fun i => flat_map (flags_of_window threshold) (emitted_windows factor chunk f i)) |}.

Definition mk_state (n : nat) (g : nat -> list Q) (h : nat -> list bool) : reducer_state :=
  {| downsampled_data := rows_of n g; clipped_status := rows_of n h |}.

(** The (value, is_clipped) points of one window. *)
Definition window_points (threshold : Q) (w : list Q) : list (Q * bool) :=
  combine (points_of_window w) (flags_of_window threshold w).

(** The windows of channel [i] in the run of the program on [f]. *)
Definition windows_of (f : SoundFile) (i : nat) : list (list Q) :=
  emitted_windows (factor_of f) (chunk_of f) f i.

(** ** The run of the reducer, window by window *)

(** The (channel, window) pairs in the order the three nested loops reach
    line 65: blocks outermost, then channels, then windows. *)
Definition schedule (factor chunk : nat) (f : SoundFile) : list (nat * list Q) :=
  flat_map (fun block =>
              flat_map (fun i => map (fun w => (i, w)) (chunks factor (column i block)))
                       (seq 0 (num_channels f)))
           (blocks f chunk).

Definition flush_window (threshold : Q) (st : reducer_state) (iw : nat * list Q)
  : result reducer_state :=
  window_step threshold (fst iw) st (snd iw).

(** The state of the program on [f] after [k] windows have been handled. *)
Definition state_after (f : SoundFile) (k : nat) : result reducer_state :=
  for_each (flush_window clip_threshold)
           (firstn k (schedule (factor_of f) (chunk_of f) f))
           (init_state (num_channels f)).

(** ** Counting windows *)

(** The lengths of the blocks of a stream of [total] frames. *)
Definition block_lengths (chunk total : nat) : list nat :=
  map (fun k => Nat.min chunk (total - k * chunk)) (seq 0 (range_len 0 total chunk)).

(** The number of windows the loops handle per channel. *)
Definition windows_emitted (factor chunk total : nat) : nat :=
  list_sum (map (fun n => range_len 0 n factor) (block_lengths chunk total)).

(** The per-channel output length the specification promises:
    twice the ceiling of [total_frames / downsample_factor]. *)
Definition promised_length (f : SoundFile) : Z :=
  let factor := downsample_factor target_points (total_samples f) in
  (2 * ((total_samples f + factor - 1) / factor))%Z.

(** A mono file of 100000 silent frames at 11025 Hz. *)
Definition silence_11025 : SoundFile :=
  mono 11025 (repeat 0%Q (Z.to_nat 100000)).

(** The accumulator of the reference after the samples [x :: rest] of an
    open window. *)
Definition acc_of (threshold : Q) (x : Q) (rest : list Q) : accumulator :=
  {| running_max := amax x rest;
     running_min := amin x rest;
     clip_flag := is_clipped threshold (x :: rest);
     count := S (length rest) |}.




(** ** The time axis the specification describes *)




(** A mono file without frames. *)
Definition empty_file : SoundFile := mono 44100 [].

(** ** The figure of a run that succeeds *)

Definition axes_for (time : list Q) (st : reducer_state) (i : nat) : axes_plot :=
  let data := nth i (downsampled_data st) [] in
  let flags := nth i (clipped_status st) [] in
  {| xlim := (nth 0 time 0%Q, nth (length time - 1) time 0%Q);
     non_clipped_data :=
       map (fun cv : bool * Q => if fst cv then None else Some (snd cv))
           (combine flags data);
     clipped_data :=
       map (fun cv : bool * Q => if fst cv then None else Some (snd cv))
           (combine (map negb flags) data) |}.

Definition figure_for (f : SoundFile) (st : reducer_state) : figure :=
  let time := linspace 0%Q (total_duration f)
                       (length (nth 0 (downsampled_data st) [])) in
  {| time_downsampled := time;
     axes := map (axes_for time st) (seq 0 (num_channels f)) |}.

(** A mono file of two samples, the first one clipped. *)
Definition two_samples : SoundFile := mono 1 [1; 1 # 2]%Q.

(** A stereo file whose first channel holds the samples of [two_samples]. *)
Definition two_channels : SoundFile :=
  {| channels := 2; samplerate := 1;
     frames_data := [[1; -1]; [1 # 2; 1 # 4]]%Q |}.
(** * Properties *)

(** ** Sanity checks *)

Example reduce_small :
  reduce_blocks clip_threshold 2 3 (mono 1 [1; 2; 3; 4; 5]%Q) =
  Ok {| downsampled_data := [[2; 1; 3; 3; 5; 4]]%Q;
        clipped_status := [[true; true; true; true; true; true]] |}.
Proof. reflexivity. Qed.

(** The same five samples read four at a time give other values, and only
    then those of the unblocked reference. *)
Example reduce_small_blocks_of_four :
  reduce_blocks clip_threshold 2 4 (mono 1 [1; 2; 3; 4; 5]%Q) =
  Ok {| downsampled_data := [[2; 1; 4; 3; 5; 5]]%Q;
        clipped_status := [[true; true; true; true; true; true]] |} /\
  unblocked_reference clip_threshold 2 (mono 1 [1; 2; 3; 4; 5]%Q) =
  [[(2, true); (1, true); (4, true); (3, true); (5, true); (5, true)]]%Q.
Proof. split; reflexivity. Qed.

Example visualize_small :
  visualize_waveform (Some (mono 1 [1; (1 # 2)]%Q)) empty_world =
  ({| stdout := [ReadingChunks; PlottingWaveforms; SuccessfullyGenerated];
      output_png :=
        Some {| time_downsampled := linspace 0%Q 2%Q 4;
                axes := [{| xlim := ((0 * (2 / 3) + 0)%Q, 2%Q);
                            non_clipped_data := [None; None; Some (1 # 2); Some (1 # 2)];
                            clipped_data := [Some 1%Q; Some 1%Q; None; None] |}] |} |},
   Ok tt).
Proof. vm_compute. reflexivity. Qed.

(** ** Loops *)

Lemma for_each_app {A S : Type} (body : S -> A -> result S) (xs ys : list A) (st : S) :
  for_each body (xs ++ ys) st = (st' <- for_each body xs st ;; for_each body ys st').
Proof.
  revert st. induction xs as [|x xs IH]; intros st; simpl.
  - reflexivity.
  - destruct (body st x) as [st'|e]; simpl; [apply IH | reflexivity].
Qed.

Lemma for_each_map {A B S : Type} (body : S -> B -> result S) (g : A -> B)
  (xs : list A) (st : S) :
  for_each body (map g xs) st = for_each (fun s x => body s (g x)) xs st.
Proof.
  revert st. induction xs as [|x xs IH]; intros st; simpl.
  - reflexivity.
  - destruct (body st (g x)); simpl; [apply IH | reflexivity].
Qed.

Lemma for_each_flat_map {A B S : Type} (body : S -> B -> result S) (g : A -> list B)
  (xs : list A) (st : S) :
  for_each body (flat_map g xs) st = for_each (fun s x => for_each body (g x) s) xs st.
Proof.
  revert st. induction xs as [|x xs IH]; intros st; simpl.
  - reflexivity.
  - rewrite for_each_app. destruct (for_each body (g x) st); simpl; [apply IH | reflexivity].
Qed.

Lemma for_each_ext {A S : Type} (body1 body2 : S -> A -> result S) (xs : list A) (st : S) :
  (forall s x, In x xs -> body1 s x = body2 s x) ->
  for_each body1 xs st = for_each body2 xs st.
Proof.
  revert st. induction xs as [|x xs IH]; intros st H; simpl.
  - reflexivity.
  - rewrite (H st x (or_introl eq_refl)).
    destruct (body2 st x); simpl; [|reflexivity].
    apply IH. intros s y Hy. apply H. now right.
Qed.

(** ** Rows updated by index *)

Lemma append_at_ok {A : Type} (i : nat) (x : A) (rows : list (list A)) :
  i < length rows -> append_at i x rows = Ok (extend_at i [x] rows).
Proof.
  revert i. induction rows as [|row rest IH]; intros i Hi; simpl in *.
  - lia.
  - destruct i as [|i']; [reflexivity|].
    simpl. rewrite IH by lia. reflexivity.
Qed.

Lemma append_at_raises {A : Type} (i : nat) (x : A) (rows : list (list A)) :
  length rows <= i -> append_at i x rows = Raise IndexError.
Proof.
  revert i. induction rows as [|row rest IH]; intros i Hi; simpl in *.
  - reflexivity.
  - destruct i as [|i']; [lia|]. simpl. rewrite IH by lia. reflexivity.
Qed.

Lemma extend_at_length {A : Type} (i : nat) (xs : list A) (rows : list (list A)) :
  length (extend_at i xs rows) = length rows.
Proof.
  revert i. induction rows as [|row rest IH]; intros [|i']; simpl; auto.
Qed.

Lemma extend_at_extend_at {A : Type} (i : nat) (xs ys : list A) (rows : list (list A)) :
  extend_at i ys (extend_at i xs rows) = extend_at i (xs ++ ys) rows.
Proof.
  revert i. induction rows as [|row rest IH]; intros [|i']; simpl; auto.
  - now rewrite app_assoc.
  - now rewrite IH.
Qed.

Lemma extend_at_nil {A : Type} (i : nat) (rows : list (list A)) :
  extend_at i [] rows = rows.
Proof.
  revert i. induction rows as [|row rest IH]; intros [|i']; simpl; auto.
  - now rewrite app_nil_r.
  - now rewrite IH.
Qed.

Lemma rows_of_ext {A : Type} (n : nat) (g1 g2 : nat -> list A) :
  (forall k, k < n -> g1 k = g2 k) -> rows_of n g1 = rows_of n g2.
Proof.
  intros H. apply map_ext_in. intros k Hk. apply in_seq in Hk. apply H. lia.
Qed.

Lemma rows_of_length {A : Type} (n : nat) (g : nat -> list A) :
  length (rows_of n g) = n.
Proof. unfold rows_of. now rewrite length_map, length_seq. Qed.

Lemma nth_rows_of {A : Type} (n : nat) (g : nat -> list A) (i : nat) :
  i < n -> nth i (rows_of n g) [] = g i.
Proof.
  intros Hi. unfold rows_of.
  rewrite (nth_indep _ [] (g 0)) by (now rewrite length_map, length_seq).
  rewrite (map_nth g (seq 0 n) 0 i). now rewrite seq_nth.
Qed.

Lemma repeat_rows_of {A : Type} (n : nat) :
  repeat (@nil A) n = rows_of n (fun _ => []).
Proof.
  unfold rows_of. generalize 0. induction n as [|n IH]; intros s; simpl.
  - reflexivity.
  - now rewrite (IH (S s)).
Qed.

Lemma extend_at_map_seq {A : Type} (g : nat -> list A) (xs : list A) (n s i : nat) :
  extend_at i xs (map g (seq s n)) =
  map (fun k => if k =? s + i then g k ++ xs else g k) (seq s n).
Proof.
  revert s i. induction n as [|n IH]; intros s i; simpl.
  - reflexivity.
  - destruct i as [|i'].
    + replace (s + 0) with s by lia. rewrite Nat.eqb_refl. f_equal.
      apply map_ext_in. intros k Hk. apply in_seq in Hk.
      destruct (Nat.eqb_spec k s); [lia | reflexivity].
    + destruct (Nat.eqb_spec s (s + S i')); [lia|]. f_equal.
      rewrite IH. apply map_ext. intros k.
      now replace (S s + i') with (s + S i') by lia.
Qed.

Lemma extend_at_rows_of {A : Type} (n i : nat) (g : nat -> list A) (xs : list A) :
  extend_at i xs (rows_of n g) =
  rows_of n (fun k => if k =? i then g k ++ xs else g k).
Proof. unfold rows_of. now rewrite extend_at_map_seq. Qed.

(** ** The reducer never raises, and what it computes *)

Lemma emit_nil (threshold : Q) (i : nat) (st : reducer_state) :
  emit threshold i [] st = st.
Proof. destruct st. unfold emit. simpl. now rewrite !extend_at_nil. Qed.

Lemma emit_emit (threshold : Q) (i : nat) (ws1 ws2 : list (list Q)) (st : reducer_state) :
  emit threshold i ws2 (emit threshold i ws1 st) = emit threshold i (ws1 ++ ws2) st.
Proof.
  unfold emit. simpl. now rewrite !extend_at_extend_at, !flat_map_app.
Qed.

Lemma emit_lengths (threshold : Q) (i : nat) (ws : list (list Q)) (st : reducer_state) :
  length (downsampled_data (emit threshold i ws st)) = length (downsampled_data st) /\
  length (clipped_status (emit threshold i ws st)) = length (clipped_status st).
Proof. unfold emit. simpl. now rewrite !extend_at_length. Qed.

Lemma window_step_emit (threshold : Q) (i : nat) (st : reducer_state) (w : list Q) :
  i < length (downsampled_data st) ->
  i < length (clipped_status st) ->
  window_step threshold i st w = Ok (emit threshold i [w] st).
Proof.
  intros Hd Hc. destruct w as [|x rest].
  - unfold window_step. simpl. destruct st. unfold emit. simpl.
    now rewrite !extend_at_nil.
  - unfold window_step, emit. simpl.
    rewrite append_at_ok by assumption. simpl.
    rewrite append_at_ok by (now rewrite extend_at_length). simpl.
    rewrite append_at_ok by assumption. simpl.
    rewrite append_at_ok by (now rewrite extend_at_length). simpl.
    now rewrite !extend_at_extend_at.
Qed.

Lemma for_each_window_step (threshold : Q) (i : nat) (ws : list (list Q))
  (st : reducer_state) :
  i < length (downsampled_data st) ->
  i < length (clipped_status st) ->
  for_each (window_step threshold i) ws st = Ok (emit threshold i ws st).
Proof.
  revert st. induction ws as [|w ws IH]; intros st Hd Hc; simpl.
  - now rewrite emit_nil.
  - rewrite window_step_emit by assumption. simpl.
    destruct (emit_lengths threshold i [w] st) as [Ld Lc].
    rewrite IH by (rewrite ?Ld, ?Lc; assumption).
    now rewrite emit_emit.
Qed.

Lemma process_channel_emit (threshold : Q) (factor i : nat) (cd : list Q)
  (st : reducer_state) :
  1 <= factor ->
  i < length (downsampled_data st) ->
  i < length (clipped_status st) ->
  process_channel threshold factor st (i, cd) =
  Ok (emit threshold i (chunks factor cd) st).
Proof.
  intros Hf Hd Hc. unfold process_channel, py_range.
  destruct factor as [|p]; [lia|]. simpl bind.
  rewrite for_each_map.
  rewrite <- (for_each_window_step threshold i (chunks (S p) cd) st Hd Hc).
  unfold chunks. rewrite for_each_map. reflexivity.
Qed.

Lemma combine_map_self {A B : Type} (g : A -> B) (l : list A) :
  combine l (map g l) = map (fun a => (a, g a)) l.
Proof. induction l as [|a l IH]; simpl; [reflexivity | now rewrite IH]. Qed.

Lemma enumerate_transpose (ncols : nat) (block : list (list Q)) :
  enumerate (transpose ncols block) =
  map (fun i => (i, column i block)) (seq 0 ncols).
Proof.
  unfold enumerate, transpose. rewrite length_map, length_seq.
  apply combine_map_self.
Qed.

Lemma process_channels_rows (threshold : Q) (factor n : nat) (block : list (list Q))
  (g : nat -> list Q) (h : nat -> list bool) (m : nat) :
  1 <= factor -> m <= n ->
  for_each (fun s i => process_channel threshold factor s (i, column i block))
           (seq 0 m) (mk_state n g h) =
  Ok (mk_state n
        (fun k => if k <? m
                  then g k ++ flat_map points_of_window (chunks factor (column k block))
                  else g k)
        (fun k => if k <? m
                  then h k ++ flat_map (flags_of_window threshold)
                                       (chunks factor (column k block))
                  else h k)).
Proof.
  intros Hf. induction m as [|m IH]; intros Hm.
  - reflexivity.
  - rewrite seq_S, for_each_app, IH by lia.
    cbn [bind for_each Nat.add].
    rewrite process_channel_emit; simpl; rewrite ?rows_of_length; try lia.
    unfold emit, mk_state. simpl. rewrite !extend_at_rows_of.
    f_equal. f_equal; apply rows_of_ext; intros k Hk;
      destruct (Nat.eqb_spec k m) as [->|Hne].
    + rewrite Nat.ltb_irrefl.
      destruct (Nat.ltb_spec m (S m)); [reflexivity | lia].
    + destruct (Nat.ltb_spec k m), (Nat.ltb_spec k (S m)); try lia; reflexivity.
    + rewrite Nat.ltb_irrefl.
      destruct (Nat.ltb_spec m (S m)); [reflexivity | lia].
    + destruct (Nat.ltb_spec k m), (Nat.ltb_spec k (S m)); try lia; reflexivity.
Qed.

Lemma process_block_rows (threshold : Q) (factor n : nat) (block : list (list Q))
  (g : nat -> list Q) (h : nat -> list bool) :
  1 <= factor ->
  process_block threshold factor n (mk_state n g h) block =
  Ok (mk_state n
        (fun k => g k ++ flat_map points_of_window (chunks factor (column k block)))
        (fun k => h k ++ flat_map (flags_of_window threshold)
                                  (chunks factor (column k block)))).
Proof.
  intros Hf. unfold process_block.
  rewrite enumerate_transpose, for_each_map.
  rewrite (process_channels_rows threshold factor n block g h n Hf (Nat.le_refl n)).
  f_equal. unfold mk_state. f_equal; apply rows_of_ext; intros k Hk;
    destruct (Nat.ltb_spec k n); try lia; reflexivity.
Qed.

Lemma process_blocks_rows (threshold : Q) (factor n : nat) (bs : list (list (list Q)))
  (g : nat -> list Q) (h : nat -> list bool) :
  1 <= factor ->
  for_each (process_block threshold factor n) bs (mk_state n g h) =
  Ok (mk_state n
        (fun k => g k ++ flat_map points_of_window
                           (flat_map (fun b => chunks factor (column k b)) bs))
        (fun k => h k ++ flat_map (flags_of_window threshold)
                           (flat_map (fun b => chunks factor (column k b)) bs))).
Proof.
  intros Hf. revert g h. induction bs as [|b bs IH]; intros g h; simpl.
  - f_equal. unfold mk_state. f_equal; apply rows_of_ext; intros k _;
      now rewrite app_nil_r.
  - rewrite process_block_rows by assumption. simpl. rewrite IH.
    f_equal. unfold mk_state. f_equal; apply rows_of_ext; intros k _;
      now rewrite flat_map_app, app_assoc.
Qed.

Lemma reduce_blocks_eq (threshold : Q) (factor chunk : nat) (f : SoundFile) :
  1 <= factor ->
  reduce_blocks threshold factor chunk f = Ok (blocked_state threshold factor chunk f).
Proof.
  intros Hf. unfold reduce_blocks, init_state.
  rewrite !repeat_rows_of.
  exact (process_blocks_rows threshold factor (num_channels f) (blocks f chunk)
           (fun _ => []) (fun _ => []) Hf).
Qed.

Lemma factor_pos (target total : Z) :
  (0 < target)%Z -> (1 <= downsample_factor target total)%Z.
Proof.
  intros Ht. unfold downsample_factor.
  destruct (Z.gtb_spec total target) as [Hgt|Hle]; [|lia].
  apply Z.div_le_lower_bound; lia.
Qed.

Lemma factor_of_pos (f : SoundFile) : 1 <= factor_of f.
Proof.
  unfold factor_of.
  pose proof (factor_pos target_points (total_samples f) eq_refl). lia.
Qed.

Lemma chunk_of_pos (f : SoundFile) : 1 <= chunk_of f.
Proof. unfold chunk_of, chunk_size_samples. lia. Qed.

Lemma reduce_stream_eq (f : SoundFile) :
  reduce_stream f = Ok (blocked_state clip_threshold (factor_of f) (chunk_of f) f).
Proof. apply reduce_blocks_eq, factor_of_pos. Qed.

(** ** Pieces of a list *)

Lemma range_len_mul_lt (len n k : nat) :
  1 <= n -> k < range_len 0 len n -> k * n < len.
Proof.
  unfold range_len. intros Hn Hk.
  pose proof (Nat.Div0.mul_div_le (len - 0 + n - 1) n) as H.
  nia.
Qed.

Lemma slice_length {A : Type} (a b : nat) (xs : list A) :
  length (slice a b xs) = Nat.min (b - a) (length xs - a).
Proof. unfold slice. now rewrite length_firstn, length_skipn. Qed.

Lemma slice_incl {A : Type} (a b : nat) (xs : list A) (x : A) :
  In x (slice a b xs) -> In x xs.
Proof.
  unfold slice. intros H.
  rewrite <- (firstn_skipn a xs). apply in_or_app. right.
  rewrite <- (firstn_skipn (b - a) (skipn a xs)). apply in_or_app. now left.
Qed.

Lemma chunks_length {A : Type} (n : nat) (xs : list A) :
  length (chunks n xs) = range_len 0 (length xs) n.
Proof. unfold chunks. now rewrite length_map, length_seq. Qed.

Lemma chunks_in {A : Type} (n : nat) (xs w : list A) :
  1 <= n -> In w (chunks n xs) ->
  1 <= length w <= n /\ forall x, In x w -> In x xs.
Proof.
  intros Hn Hw. unfold chunks in Hw. apply in_map_iff in Hw.
  destruct Hw as [k [<- Hk]]. apply in_seq in Hk.
  pose proof (range_len_mul_lt (length xs) n k Hn ltac:(lia)) as Hlt.
  split.
  - rewrite slice_length. lia.
  - intros x. apply slice_incl.
Qed.

Lemma chunks_nonempty {A : Type} (n : nat) (xs w : list A) :
  1 <= n -> In w (chunks n xs) -> w <> [].
Proof.
  intros Hn Hw. destruct (chunks_in n xs w Hn Hw) as [[H _] _].
  intros ->. simpl in H. lia.
Qed.

Lemma column_length (i : nat) (block : list (list Q)) :
  length (column i block) = length block.
Proof. unfold column. apply length_map. Qed.

Lemma emitted_windows_in (factor chunk : nat) (f : SoundFile) (i : nat) (w : list Q) :
  1 <= factor ->
  In w (emitted_windows factor chunk f i) ->
  1 <= length w <= factor /\
  forall s, In s w -> In s (column i (frames_data f)).
Proof.
  intros Hf Hw. unfold emitted_windows in Hw. apply in_flat_map in Hw.
  destruct Hw as [b [Hb Hw]].
  destruct (chunks_in factor (column i b) w Hf Hw) as [Hlen Hin].
  split; [exact Hlen|].
  intros s Hs. apply Hin in Hs. unfold column in *.
  apply in_map_iff in Hs. destruct Hs as [fr [<- Hfr]].
  apply (in_map (fun frame => nth i frame 0%Q)).
  unfold blocks, chunks in Hb. apply in_map_iff in Hb.
  destruct Hb as [k [<- _]]. now apply slice_incl in Hfr.
Qed.

(** ** Maximum, minimum and the clip test of a window *)

Lemma pick_max_le (m s : Q) : (m <= pick_max m s)%Q /\ (s <= pick_max m s)%Q.
Proof.
  unfold pick_max. destruct (Qle_bool m s) eqn:E.
  - apply Qle_bool_iff in E. split; [exact E | apply Qle_refl].
  - split; [apply Qle_refl|].
    apply Qlt_le_weak, Qnot_le_lt. intros H. apply Qle_bool_iff in H. congruence.
Qed.

Lemma pick_min_le (m s : Q) : (pick_min m s <= m)%Q /\ (pick_min m s <= s)%Q.
Proof.
  unfold pick_min. destruct (Qle_bool s m) eqn:E.
  - apply Qle_bool_iff in E. split; [exact E | apply Qle_refl].
  - split; [apply Qle_refl|].
    apply Qlt_le_weak, Qnot_le_lt. intros H. apply Qle_bool_iff in H. congruence.
Qed.

Lemma pick_max_cases (m s : Q) : pick_max m s = m \/ pick_max m s = s.
Proof. unfold pick_max. destruct (Qle_bool m s); auto. Qed.

Lemma pick_min_cases (m s : Q) : pick_min m s = m \/ pick_min m s = s.
Proof. unfold pick_min. destruct (Qle_bool s m); auto. Qed.

Lemma amax_in (x : Q) (rest : list Q) : In (amax x rest) (x :: rest).
Proof.
  unfold amax. revert x. induction rest as [|y rest IH]; intros x; simpl.
  - now left.
  - destruct (IH (pick_max x y)) as [H|H].
    + destruct (pick_max_cases x y) as [E|E]; [left | right; left]; congruence.
    + right. now right.
Qed.

Lemma amin_in (x : Q) (rest : list Q) : In (amin x rest) (x :: rest).
Proof.
  unfold amin. revert x. induction rest as [|y rest IH]; intros x; simpl.
  - now left.
  - destruct (IH (pick_min x y)) as [H|H].
    + destruct (pick_min_cases x y) as [E|E]; [left | right; left]; congruence.
    + right. now right.
Qed.

Lemma amax_upper (x : Q) (rest : list Q) (s : Q) :
  In s (x :: rest) -> (s <= amax x rest)%Q.
Proof.
  unfold amax. revert x s. induction rest as [|y rest IH]; intros x s Hs; simpl.
  - destruct Hs as [->|[]]. apply Qle_refl.
  - destruct (pick_max_le x y) as [Hx Hy].
    destruct Hs as [E|[E|Hs]]; subst.
    + apply Qle_trans with (pick_max s y); [exact Hx | apply IH; now left].
    + apply Qle_trans with (pick_max x s); [exact Hy | apply IH; now left].
    + apply IH. now right.
Qed.

Lemma amin_lower (x : Q) (rest : list Q) (s : Q) :
  In s (x :: rest) -> (amin x rest <= s)%Q.
Proof.
  unfold amin. revert x s. induction rest as [|y rest IH]; intros x s Hs; simpl.
  - destruct Hs as [->|[]]. apply Qle_refl.
  - destruct (pick_min_le x y) as [Hx Hy].
    destruct Hs as [E|[E|Hs]]; subst.
    + apply Qle_trans with (pick_min s y); [apply IH; now left | exact Hx].
    + apply Qle_trans with (pick_min x s); [apply IH; now left | exact Hy].
    + apply IH. now right.
Qed.


(** ** The points of the channels *)

Lemma combine_app_eq {A B : Type} (l1 l2 : list A) (r1 r2 : list B) :
  length l1 = length r1 ->
  combine (l1 ++ l2) (r1 ++ r2) = combine l1 r1 ++ combine l2 r2.
Proof.
  revert r1. induction l1 as [|a l1 IH]; intros [|b r1] H; simpl in *; try lia.
  - reflexivity.
  - now rewrite IH by lia.
Qed.

Lemma combine_flat_map {A B C : Type} (p : A -> list B) (q : A -> list C) (ws : list A) :
  (forall w, length (p w) = length (q w)) ->
  combine (flat_map p ws) (flat_map q ws) = flat_map (fun w => combine (p w) (q w)) ws.
Proof.
  intros H. induction ws as [|w ws IH]; simpl.
  - reflexivity.
  - now rewrite combine_app_eq, IH by apply H.
Qed.

Lemma combine_map_map {A B C : Type} (g : A -> B) (h : A -> C) (l : list A) :
  combine (map g l) (map h l) = map (fun a => (g a, h a)) l.
Proof. induction l as [|a l IH]; simpl; [reflexivity | now rewrite IH]. Qed.

Lemma points_flags_length (threshold : Q) (w : list Q) :
  length (points_of_window w) = length (flags_of_window threshold w).
Proof. destruct w; reflexivity. Qed.

Lemma series_blocked_state (threshold : Q) (factor chunk : nat) (f : SoundFile) :
  series (blocked_state threshold factor chunk f) =
  rows_of (num_channels f)
    (fun i => flat_map (window_points threshold) (emitted_windows factor chunk f i)).
Proof.
  unfold series, blocked_state, rows_of. simpl.
  rewrite combine_map_map, map_map. apply map_ext. intros i. simpl.
  apply combine_flat_map. intros w. apply points_flags_length.
Qed.

Lemma window_extrema_of (w : list Q) :
  w <> [] ->
  exists hi lo,
    points_of_window w = [hi; lo] /\
    np_max w = Ok hi /\ np_min w = Ok lo /\
    (lo <= hi)%Q /\ In hi w /\ In lo w /\
    (forall s, In s w -> (lo <= s <= hi)%Q).
Proof.
  intros Hw. destruct w as [|x rest]; [congruence|].
  exists (amax x rest), (amin x rest). simpl.
  repeat split; try reflexivity.
  - apply Qle_trans with x; [apply amin_lower | apply amax_upper]; now left.
  - apply amax_in.
  - apply amin_in.
  - now apply amin_lower.
  - now apply amax_upper.
Qed.

(** ** The windows cover the channel *)

Lemma range_len_step (len n : nat) :
  1 <= n -> 1 <= len -> range_len 0 len n = S (range_len 0 (len - n) n).
Proof.
  intros Hn Hlen. unfold range_len.
  destruct (Nat.le_gt_cases len n) as [Hle|Hgt].
  - replace (len - n) with 0 by lia.
    rewrite (Nat.div_small (0 - 0 + n - 1) n) by lia.
    symmetry. apply (Nat.div_unique _ _ 1 (len - 1)); lia.
  - replace (len - 0 + n - 1) with ((len - n - 0 + n - 1) + 1 * n) by lia.
    rewrite Nat.div_add by lia. lia.
Qed.

Lemma range_len_zero (n : nat) : range_len 0 0 n = 0.
Proof.
  unfold range_len. destruct n as [|n]; [reflexivity|].
  apply Nat.div_small. lia.
Qed.

Lemma chunks_nil {A : Type} (n : nat) : chunks n (@nil A) = [].
Proof. unfold chunks. simpl length. now rewrite range_len_zero. Qed.

Lemma chunks_unfold {A : Type} (n : nat) (xs : list A) :
  1 <= n -> xs <> [] ->
  chunks n xs = firstn n xs :: chunks n (skipn n xs).
Proof.
  intros Hn Hxs. unfold chunks.
  assert (1 <= length xs) as Hlen by (destruct xs; [congruence | simpl; lia]).
  rewrite (range_len_step (length xs) n Hn Hlen), length_skipn.
  rewrite <- cons_seq, <- seq_shift, map_cons, map_map.
  f_equal.
  - unfold slice. simpl. f_equal. lia.
  - apply map_ext. intros k. unfold slice.
    rewrite skipn_skipn. f_equal; [lia | f_equal; lia].
Qed.

Lemma concat_chunks {A : Type} (n : nat) (xs : list A) :
  1 <= n -> concat (chunks n xs) = xs.
Proof.
  intros Hn. remember (length xs) as m eqn:Hm.
  revert xs Hm. induction m as [m IH] using lt_wf_ind. intros xs Hm.
  destruct xs as [|x xs].
  - now rewrite chunks_nil.
  - rewrite chunks_unfold by (try congruence; assumption).
    cbn [concat]. rewrite (IH (length (skipn n (x :: xs)))); try reflexivity.
    + apply firstn_skipn.
    + rewrite length_skipn. subst m. cbn [length]. lia.
Qed.

Lemma column_app (i : nat) (b1 b2 : list (list Q)) :
  column i (b1 ++ b2) = column i b1 ++ column i b2.
Proof. unfold column. apply map_app. Qed.

Lemma concat_emitted_windows (factor chunk : nat) (f : SoundFile) (i : nat) :
  1 <= factor -> 1 <= chunk ->
  concat (emitted_windows factor chunk f i) = column i (frames_data f).
Proof.
  intros Hf Hc. unfold emitted_windows, blocks.
  rewrite <- (concat_chunks chunk (frames_data f) Hc) at 2.
  induction (chunks chunk (frames_data f)) as [|b bs IH]; simpl.
  - reflexivity.
  - now rewrite concat_app, column_app, IH, concat_chunks.
Qed.

(** ** Claims about the emitted windows *)

(** C4. Every window the reducer emits contributes exactly two points to its
    channel, the maximum first and the minimum second; the maximum is at
    least the minimum, both are samples of the window, and every sample of
    the window lies between them.  The windows are runs of consecutive
    samples of the channel: put end to end they give the channel again. *)
Theorem window_max_then_min (f : SoundFile) (i : nat) (Hi : i < num_channels f) :
  exists st,
    reduce_stream f = Ok st /\
    nth i (downsampled_data st) [] = flat_map points_of_window (windows_of f i) /\
    concat (windows_of f i) = column i (frames_data f) /\
    Forall (fun w =>
              exists hi lo,
                points_of_window w = [hi; lo] /\
                np_max w = Ok hi /\ np_min w = Ok lo /\
                (lo <= hi)%Q /\ In hi w /\ In lo w /\
                (forall s, In s w -> (lo <= s <= hi)%Q))
           (windows_of f i).
Proof.
  exists (blocked_state clip_threshold (factor_of f) (chunk_of f) f).
  split; [apply reduce_stream_eq|].
  split; [|split].
  - unfold blocked_state. simpl. now rewrite nth_rows_of.
  - apply concat_emitted_windows; [apply factor_of_pos | apply chunk_of_pos].
  - apply Forall_forall. intros w Hw.
    destruct (emitted_windows_in _ _ _ _ _ (factor_of_pos f) Hw) as [Hlen Hin].
    apply window_extrema_of. intros ->. simpl in Hlen. lia.
Qed.


(** ** The reducer as a sequence of window steps *)

Lemma process_channel_schedule (threshold : Q) (factor i : nat) (cd : list Q)
  (st : reducer_state) :
  1 <= factor ->
  process_channel threshold factor st (i, cd) =
  for_each (flush_window threshold) (map (fun w => (i, w)) (chunks factor cd)) st.
Proof.
  intros Hf. unfold process_channel, py_range.
  destruct factor as [|p]; [lia|]. simpl bind.
  unfold chunks. now rewrite !for_each_map.
Qed.

Lemma reduce_blocks_schedule (threshold : Q) (factor chunk : nat) (f : SoundFile) :
  1 <= factor ->
  reduce_blocks threshold factor chunk f =
  for_each (flush_window threshold) (schedule factor chunk f)
           (init_state (num_channels f)).
Proof.
  intros Hf. unfold reduce_blocks, schedule. rewrite for_each_flat_map.
  apply for_each_ext. intros s b _. unfold process_block.
  rewrite enumerate_transpose, for_each_map, for_each_flat_map.
  apply for_each_ext. intros s' i _. now apply process_channel_schedule.
Qed.

Lemma nth_extend_at {A : Type} (i k : nat) (xs : list A) (rows : list (list A)) :
  nth k (extend_at i xs rows) [] =
  if (k =? i) && (i <? length rows) then nth i rows [] ++ xs else nth k rows [].
Proof.
  revert i k. induction rows as [|row rest IH]; intros i k; simpl.
  - destruct k; rewrite andb_false_r; reflexivity.
  - destruct i as [|i'], k as [|k']; simpl; try reflexivity.
    rewrite IH. reflexivity.
Qed.

Lemma flat_map_points_flags_length (threshold : Q) (ws : list (list Q)) :
  length (flat_map (flags_of_window threshold) ws) =
  length (flat_map points_of_window ws).
Proof.
  induction ws as [|w ws IH]; simpl; [reflexivity|].
  now rewrite !length_app, IH, (points_flags_length threshold).
Qed.

Lemma emit_balanced (threshold : Q) (j : nat) (ws : list (list Q)) (st : reducer_state) :
  length (clipped_status st) = length (downsampled_data st) ->
  (forall i, length (nth i (clipped_status st) []) =
             length (nth i (downsampled_data st) [])) ->
  forall i, length (nth i (clipped_status (emit threshold j ws st)) []) =
            length (nth i (downsampled_data (emit threshold j ws st)) []).
Proof.
  intros Hlen H i. unfold emit. simpl. rewrite !nth_extend_at, Hlen.
  destruct ((i =? j) && (j <? length (downsampled_data st))).
  - now rewrite !length_app, H, flat_map_points_flags_length.
  - apply H.
Qed.

Lemma firstn_In {A : Type} (k : nat) (l : list A) (x : A) :
  In x (firstn k l) -> In x l.
Proof.
  intros H. rewrite <- (firstn_skipn k l). apply in_or_app. now left.
Qed.

Lemma firstn_S_nth_error {A : Type} (k : nat) (l : list A) (x : A) :
  nth_error l k = Some x -> firstn (S k) l = firstn k l ++ [x].
Proof.
  revert k. induction l as [|a l IH]; intros [|k] H; simpl in *; try discriminate.
  - now injection H as ->.
  - now rewrite (IH k H).
Qed.

Lemma schedule_in (factor chunk : nat) (f : SoundFile) (i : nat) (w : list Q) :
  1 <= factor ->
  In (i, w) (schedule factor chunk f) -> i < num_channels f /\ w <> [].
Proof.
  intros Hf H. unfold schedule in H. apply in_flat_map in H.
  destruct H as [b [_ H]]. apply in_flat_map in H. destruct H as [j [Hj H]].
  apply in_map_iff in H. destruct H as [w' [E Hw]]. injection E as -> ->.
  apply in_seq in Hj. split; [lia|]. now apply chunks_nonempty in Hw.
Qed.

(** The window steps of a prefix of the schedule all succeed, and keep the
    two tables of the same shape. *)
Lemma prefix_run (threshold : Q) (n : nat) (items : list (nat * list Q)) (st : reducer_state) :
  length (downsampled_data st) = n ->
  length (clipped_status st) = n ->
  (forall i, length (nth i (clipped_status st) []) =
             length (nth i (downsampled_data st) [])) ->
  Forall (fun iw => fst iw < n) items ->
  exists st',
    for_each (flush_window threshold) items st = Ok st' /\
    length (downsampled_data st') = n /\
    length (clipped_status st') = n /\
    forall i, length (nth i (clipped_status st') []) =
              length (nth i (downsampled_data st') []).
Proof.
  revert st. induction items as [|[j w] items IH]; intros st Hd Hc Hb Hall.
  - exists st. simpl. auto.
  - inversion Hall as [|? ? Hj Hrest]; subst. simpl in Hj.
    simpl. unfold flush_window at 1. simpl.
    rewrite window_step_emit by lia. simpl.
    destruct (emit_lengths threshold j [w] st) as [Ld Lc].
    apply IH; try lia; try assumption.
    apply emit_balanced; [lia | assumption].
Qed.

(** C10. After any number of window steps of the run, every channel's list
    of clip flags is as long as its list of values; the next window, if there
    is one, appends two values to its channel and the same flag twice, and
    when no window is left the state is the reducer's result. *)
Theorem clip_status_as_long_as_data (f : SoundFile) (k : nat) :
  exists st,
    state_after f k = Ok st /\
    length (downsampled_data st) = num_channels f /\
    length (clipped_status st) = num_channels f /\
    (forall i, length (nth i (clipped_status st) []) =
               length (nth i (downsampled_data st) [])) /\
    match nth_error (schedule (factor_of f) (chunk_of f) f) k with
    | Some (i, w) =>
        exists hi lo c,
          state_after f (S k) =
          Ok {| downsampled_data := extend_at i [hi; lo] (downsampled_data st);
                clipped_status := extend_at i [c; c] (clipped_status st) |}
    | None => reduce_stream f = Ok st
    end.
Proof.
  pose proof (factor_of_pos f) as Hf.
  assert (Forall (fun iw => fst iw < num_channels f)
                 (firstn k (schedule (factor_of f) (chunk_of f) f))) as Hall.
  { apply Forall_forall. intros [i w] H. apply firstn_In in H.
    now apply schedule_in in H. }
  assert (forall i, length (nth i (clipped_status (init_state (num_channels f))) []) =
                    length (nth i (downsampled_data (init_state (num_channels f))) []))
    as Hinit.
  { intros i. simpl. rewrite !repeat_rows_of.
    destruct (Nat.lt_ge_cases i (num_channels f)) as [Hi|Hi].
    - now rewrite !nth_rows_of.
    - now rewrite !nth_overflow by (rewrite rows_of_length; lia). }
  destruct (prefix_run clip_threshold (num_channels f) _ (init_state (num_channels f))
              (repeat_length _ _) (repeat_length _ _) Hinit Hall)
    as [st [Hrun [Hd [Hc Hb]]]].
  exists st. unfold state_after. repeat split; try assumption.
  destruct (nth_error (schedule (factor_of f) (chunk_of f) f) k) as [[i w]|] eqn:E.
  - destruct (schedule_in _ _ _ _ _ Hf (nth_error_In _ _ E)) as [Hi Hw].
    destruct w as [|x rest]; [congruence|].
    exists (amax x rest), (amin x rest), (is_clipped clip_threshold (x :: rest)).
    rewrite (firstn_S_nth_error _ _ _ E), for_each_app, Hrun. simpl.
    unfold flush_window. simpl fst. simpl snd.
    rewrite window_step_emit by lia. reflexivity.
  - apply nth_error_None in E. rewrite firstn_all2 in Hrun by assumption.
    unfold reduce_stream. now rewrite reduce_blocks_schedule.
Qed.

(** ** Output lengths *)

Lemma blocks_lengths (f : SoundFile) (chunk : nat) :
  map (@length (list Q)) (blocks f chunk) =
  block_lengths chunk (length (frames_data f)).
Proof.
  unfold blocks, chunks, block_lengths. rewrite map_map.
  apply map_ext. intros k. rewrite slice_length. f_equal. lia.
Qed.

Lemma emitted_windows_length (factor chunk : nat) (f : SoundFile) (i : nat) :
  length (emitted_windows factor chunk f i) =
  windows_emitted factor chunk (length (frames_data f)).
Proof.
  unfold windows_emitted. rewrite <- blocks_lengths. unfold emitted_windows.
  induction (blocks f chunk) as [|b bs IH]; simpl.
  - reflexivity.
  - now rewrite length_app, IH, chunks_length, column_length.
Qed.

Lemma flat_map_length_const {A B : Type} (g : A -> list B) (c : nat) (l : list A) :
  Forall (fun a => length (g a) = c) l ->
  length (flat_map g l) = c * length l.
Proof.
  induction 1 as [|a l Ha _ IH]; simpl.
  - lia.
  - rewrite length_app, Ha, IH. lia.
Qed.

Lemma nonempty_windows (factor chunk : nat) (f : SoundFile) (i : nat) :
  1 <= factor ->
  Forall (fun w => w <> []) (emitted_windows factor chunk f i).
Proof.
  intros Hf. apply Forall_forall. intros w Hw.
  destruct (emitted_windows_in _ _ _ _ _ Hf Hw) as [Hlen _].
  intros ->. simpl in Hlen. lia.
Qed.

Lemma points_length (factor chunk : nat) (f : SoundFile) (i : nat) :
  1 <= factor ->
  length (flat_map points_of_window (emitted_windows factor chunk f i)) =
  2 * windows_emitted factor chunk (length (frames_data f)).
Proof.
  intros Hf. rewrite <- (emitted_windows_length factor chunk f i).
  apply flat_map_length_const.
  eapply Forall_impl; [|apply (nonempty_windows factor chunk f i Hf)].
  intros [|x rest] H; [congruence | reflexivity].
Qed.

Lemma window_points_length (threshold : Q) (factor chunk : nat) (f : SoundFile) (i : nat) :
  1 <= factor ->
  length (flat_map (window_points threshold) (emitted_windows factor chunk f i)) =
  2 * windows_emitted factor chunk (length (frames_data f)).
Proof.
  intros Hf. rewrite <- (emitted_windows_length factor chunk f i).
  apply flat_map_length_const.
  eapply Forall_impl; [|apply (nonempty_windows factor chunk f i Hf)].
  intros [|x rest] H; [congruence | reflexivity].
Qed.

(** Every channel of the reducer's result has the same number of points:
    two per window, the windows counted block by block. *)
Lemma reduce_stream_lengths (f : SoundFile) :
  exists st,
    reduce_stream f = Ok st /\
    length (downsampled_data st) = num_channels f /\
    length (clipped_status st) = num_channels f /\
    forall i, i < num_channels f ->
      length (nth i (downsampled_data st) []) =
        2 * windows_emitted (factor_of f) (chunk_of f) (length (frames_data f)) /\
      length (nth i (clipped_status st) []) =
        2 * windows_emitted (factor_of f) (chunk_of f) (length (frames_data f)).
Proof.
  exists (blocked_state clip_threshold (factor_of f) (chunk_of f) f).
  split; [apply reduce_stream_eq|].
  unfold blocked_state. simpl. rewrite !rows_of_length.
  repeat split; try reflexivity.
  - rewrite nth_rows_of by assumption. apply points_length, factor_of_pos.
  - rewrite nth_rows_of by assumption.
    rewrite flat_map_points_flags_length. apply points_length, factor_of_pos.
Qed.

Lemma silence_11025_shape :
  length (frames_data silence_11025) = Z.to_nat 100000 /\
  factor_of silence_11025 = 2 /\
  chunk_of silence_11025 = Z.to_nat 55125.
Proof.
  assert (length (frames_data silence_11025) = Z.to_nat 100000) as H.
  { cbv beta iota delta [silence_11025 mono frames_data].
    now rewrite length_map, repeat_length. }
  split; [exact H|]. split.
  - unfold factor_of, total_samples. rewrite H. vm_compute. reflexivity.
  - reflexivity.
Qed.

(** C1, at a file the program can be given.  A mono file of 100000 frames
    at 11025 Hz is read in blocks of 55125 frames and reduced with factor 2:
    the first block ends in a window of one sample, so 50001 windows and
    100002 points are produced, two more than twice the ceiling of
    100000 / 2. *)
Theorem silence_11025_output_length :
  total_samples silence_11025 = 100000%Z /\
  downsample_factor target_points (total_samples silence_11025) = 2%Z /\
  chunk_size_samples silence_11025 = 55125%Z /\
  promised_length silence_11025 = 100000%Z /\
  exists st,
    reduce_stream silence_11025 = Ok st /\
    Z.of_nat (length (nth 0 (downsampled_data st) [])) = 100002%Z.
Proof.
  destruct silence_11025_shape as [Hlen [Hfac Hchunk]].
  assert (total_samples silence_11025 = 100000%Z) as Htot.
  { unfold total_samples. rewrite Hlen. reflexivity. }
  split; [exact Htot|].
  split; [rewrite Htot; reflexivity|].
  split; [reflexivity|].
  split; [unfold promised_length; rewrite Htot; reflexivity|].
  destruct (reduce_stream_lengths silence_11025) as [st [Hrun [_ [_ Hrows]]]].
  exists st. split; [exact Hrun|].
  destruct (Hrows 0 Nat.lt_0_1) as [Hd _].
  rewrite Hd, Hlen, Hfac, Hchunk. vm_compute. reflexivity.
Qed.

(** ** The reference, window by window *)

Lemma is_clipped_snoc (threshold : Q) (w : list Q) (v : Q) :
  is_clipped threshold (w ++ [v]) =
  is_clipped threshold w || Qle_bool threshold (Qabs v).
Proof.
  unfold is_clipped, np_any, np_ge, np_abs.
  rewrite !map_app, existsb_app. simpl. now rewrite orb_false_r.
Qed.

Lemma accumulate_none (threshold v : Q) :
  accumulate threshold None v = acc_of threshold v [].
Proof.
  unfold accumulate, acc_of, is_clipped, np_any, np_ge, np_abs. simpl.
  now rewrite orb_false_r.
Qed.

Lemma accumulate_some (threshold x : Q) (rest : list Q) (v : Q) :
  accumulate threshold (Some (acc_of threshold x rest)) v =
  acc_of threshold x (rest ++ [v]).
Proof.
  unfold accumulate, acc_of. cbn [running_max running_min clip_flag count].
  f_equal.
  - unfold amax. now rewrite fold_left_app.
  - unfold amin. now rewrite fold_left_app.
  - symmetry. apply (is_clipped_snoc threshold (x :: rest) v).
  - rewrite length_app. simpl. lia.
Qed.

Lemma flush_acc_of (threshold x : Q) (rest : list Q) :
  flush (acc_of threshold x rest) = window_points threshold (x :: rest).
Proof. reflexivity. Qed.

Lemma chunks_exact {A : Type} (n : nat) (w rest : list A) :
  1 <= n -> length w = n ->
  chunks n (w ++ rest) = w :: chunks n rest.
Proof.
  intros Hn Hw. rewrite chunks_unfold; try assumption.
  - rewrite firstn_app, skipn_app, Hw, Nat.sub_diag.
    rewrite firstn_all2, skipn_all2 by lia. simpl.
    now rewrite app_nil_r.
  - destruct w; [simpl in Hw; lia | discriminate].
Qed.

Lemma chunks_short {A : Type} (n : nat) (w : list A) :
  1 <= length w <= n -> chunks n w = [w].
Proof.
  intros Hw. rewrite chunks_unfold; try lia.
  - rewrite firstn_all2, skipn_all2 by lia. now rewrite chunks_nil.
  - destruct w; [simpl in Hw; lia | discriminate].
Qed.

Lemma reference_channel_chunks_gen (threshold : Q) (factor : nat) (xs : list Q) :
  1 <= factor ->
  reference_channel threshold factor None xs =
    flat_map (window_points threshold) (chunks factor xs) /\
  forall x rest, S (length rest) < factor ->
    reference_channel threshold factor (Some (acc_of threshold x rest)) xs =
    flat_map (window_points threshold) (chunks factor ((x :: rest) ++ xs)).
Proof.
  intros Hf. induction xs as [|v xs [IHnone IHacc]].
  - split.
    + now rewrite chunks_nil.
    + intros x rest Hlt. rewrite app_nil_r, chunks_short by (simpl; lia).
      reflexivity.
  - split.
    + cbn [reference_channel]. rewrite accumulate_none.
      cbn [count acc_of length].
      destruct (Nat.eqb_spec 1 factor) as [E|E].
      * rewrite flush_acc_of, IHnone.
        change (v :: xs) with ([v] ++ xs).
        rewrite chunks_exact by (simpl; lia). reflexivity.
      * rewrite IHacc by (simpl; lia). reflexivity.
    + intros x rest Hlt. cbn [reference_channel]. rewrite accumulate_some.
      cbn [count acc_of]. rewrite length_app. cbn [length].
      replace ((x :: rest) ++ v :: xs) with ((x :: rest ++ [v]) ++ xs)
        by (simpl; now rewrite <- app_assoc).
      destruct (Nat.eqb_spec (S (length rest + 1)) factor) as [E|E].
      * rewrite flush_acc_of, IHnone.
        rewrite chunks_exact by (simpl; rewrite ?length_app; simpl; lia).
        reflexivity.
      * rewrite IHacc by (rewrite length_app; simpl; lia). reflexivity.
Qed.

Lemma reference_channel_chunks (threshold : Q) (factor : nat) (xs : list Q) :
  1 <= factor ->
  reference_channel threshold factor None xs =
  flat_map (window_points threshold) (chunks factor xs).
Proof. intros Hf. now apply reference_channel_chunks_gen. Qed.

Lemma reference_channel_length (threshold : Q) (factor : nat) (xs : list Q) :
  1 <= factor ->
  length (reference_channel threshold factor None xs) =
  2 * range_len 0 (length xs) factor.
Proof.
  intros Hf. rewrite reference_channel_chunks by assumption.
  rewrite <- chunks_length. apply flat_map_length_const.
  apply Forall_forall. intros w Hw. apply chunks_nonempty in Hw; [|assumption].
  destruct w; [congruence | reflexivity].
Qed.

(** ** Blocks of a multiple of the factor *)

Lemma chunks_app_aligned {A : Type} (n q : nat) (a b : list A) :
  1 <= n -> length a = q * n ->
  chunks n (a ++ b) = chunks n a ++ chunks n b.
Proof.
  intros Hn. revert a. induction q as [|q IH]; intros a Ha.
  - destruct a; [|simpl in Ha; lia]. now rewrite chunks_nil.
  - rewrite <- (firstn_skipn n a), <- app_assoc.
    assert (length (firstn n a) = n) as Hfirst by (rewrite length_firstn; lia).
    rewrite (chunks_exact n (firstn n a) (skipn n a ++ b) Hn Hfirst).
    rewrite (chunks_exact n (firstn n a) (skipn n a) Hn Hfirst).
    rewrite IH by (rewrite length_skipn; lia). reflexivity.
Qed.

Lemma aligned_windows (factor m chunk : nat) (f : SoundFile) (i : nat) :
  1 <= factor -> 1 <= m -> chunk = m * factor ->
  emitted_windows factor chunk f i = chunks factor (column i (frames_data f)).
Proof.
  intros Hf Hm Hc. unfold emitted_windows, blocks.
  assert (1 <= chunk) as Hchunk by nia.
  remember (length (frames_data f)) as len eqn:Hlen.
  revert Hlen. generalize (frames_data f) as frames. clear f.
  induction len as [len IH] using lt_wf_ind. intros frames Hlen.
  destruct frames as [|fr frames].
  - change (column i []) with (@nil Q). now rewrite !chunks_nil.
  - rewrite chunks_unfold by (try discriminate; assumption).
    cbn [flat_map].
    rewrite (IH (length (skipn chunk (fr :: frames))));
      [| rewrite length_skipn; subst len; cbn [length]; lia | reflexivity].
    rewrite <- (firstn_skipn chunk (fr :: frames)) at 3.
    rewrite column_app.
    destruct (Nat.le_gt_cases chunk (length (fr :: frames))) as [Hle|Hgt].
    + rewrite (chunks_app_aligned factor m); try assumption; try reflexivity.
      rewrite column_length, length_firstn. lia.
    + rewrite (skipn_all2 (fr :: frames)) by lia.
      change (column i []) with (@nil Q). now rewrite chunks_nil, !app_nil_r.
Qed.

(** With blocks of a multiple of the factor, as the comment on line 49
    intends, the blocked reducer computes the unblocked reference. *)
Lemma aligned_blocks_refine (threshold : Q) (factor m chunk : nat) (f : SoundFile) :
  1 <= factor -> 1 <= m -> chunk = m * factor ->
  exists st,
    reduce_blocks threshold factor chunk f = Ok st /\
    series st = unblocked_reference threshold factor f.
Proof.
  intros Hf Hm Hc.
  exists (blocked_state threshold factor chunk f).
  split; [now apply reduce_blocks_eq|].
  rewrite series_blocked_state. unfold unblocked_reference, rows_of.
  apply map_ext. intros i.
  rewrite (aligned_windows factor m chunk f i Hf Hm Hc).
  now rewrite reference_channel_chunks.
Qed.

(** C2, at the same file.  The program reads [silence_11025] in blocks of
    55125 frames, which is not a multiple of the factor 2: it emits 100002
    points where the unblocked reference emits 100000, so the two differ. *)
Theorem silence_11025_differs_from_reference :
  exists st,
    reduce_stream silence_11025 = Ok st /\
    Z.of_nat (length (nth 0 (series st) [])) = 100002%Z /\
    Z.of_nat (length (nth 0 (unblocked_reference clip_threshold
                               (factor_of silence_11025) silence_11025) []))
      = 100000%Z /\
    series st <>
      unblocked_reference clip_threshold (factor_of silence_11025) silence_11025.
Proof.
  destruct silence_11025_shape as [Hlen [Hfac Hchunk]].
  exists (blocked_state clip_threshold (factor_of silence_11025)
                        (chunk_of silence_11025) silence_11025).
  split; [apply reduce_stream_eq|].
  assert (Z.of_nat (length (nth 0 (series (blocked_state clip_threshold
            (factor_of silence_11025) (chunk_of silence_11025) silence_11025)) []))
          = 100002%Z) as Hcode.
  { rewrite series_blocked_state, nth_rows_of by exact Nat.lt_0_1.
    rewrite window_points_length by apply factor_of_pos.
    rewrite Hlen, Hfac, Hchunk. vm_compute. reflexivity. }
  assert (Z.of_nat (length (nth 0 (unblocked_reference clip_threshold
            (factor_of silence_11025) silence_11025) [])) = 100000%Z) as Href.
  { unfold unblocked_reference.
    change (map ?g (seq 0 ?n)) with (rows_of n g).
    rewrite nth_rows_of by exact Nat.lt_0_1.
    rewrite reference_channel_length by apply factor_of_pos.
    rewrite column_length, Hlen, Hfac. vm_compute. reflexivity. }
  split; [exact Hcode|]. split; [exact Href|].
  intros E. rewrite E, Href in Hcode. discriminate Hcode.
Qed.

(** ** Factor one *)

Lemma singletons_concat {A : Type} (ws : list (list A)) :
  Forall (fun w => length w = 1) ws ->
  ws = map (fun s => [s]) (concat ws).
Proof.
  induction 1 as [|w ws Hw _ IH]; simpl.
  - reflexivity.
  - destruct w as [|s [|? ?]]; try discriminate. simpl. now rewrite <- IH.
Qed.

Lemma singleton_windows (chunk : nat) (f : SoundFile) (i : nat) :
  1 <= chunk ->
  emitted_windows 1 chunk f i = map (fun s => [s]) (column i (frames_data f)).
Proof.
  intros Hc.
  rewrite <- (concat_emitted_windows 1 chunk f i (Nat.le_refl 1) Hc).
  apply singletons_concat, Forall_forall. intros w Hw.
  destruct (emitted_windows_in _ _ _ _ _ (Nat.le_refl 1) Hw) as [Hlen _]. lia.
Qed.

Lemma flat_map_map {A B C : Type} (g : A -> B) (h : B -> list C) (l : list A) :
  flat_map h (map g l) = flat_map (fun a => h (g a)) l.
Proof. induction l as [|a l IH]; simpl; [reflexivity | now rewrite IH]. Qed.

Lemma small_file_factor (f : SoundFile) :
  (total_samples f <= target_points)%Z -> factor_of f = 1.
Proof.
  intros H. unfold factor_of, downsample_factor.
  destruct (Z.gtb_spec (total_samples f) target_points); [lia | reflexivity].
Qed.

(** C5. The downsample factor is the larger of 1 and the integer quotient of
    the frame count by the target; it is 1 whenever the frame count does not
    exceed the target, and then, in the program, every sample of a channel is
    a window of its own, emitted twice with its own clip test. *)
Theorem downsample_factor_clamped (target total : Z) (f : SoundFile) (i : nat)
  (Htotal : (0 <= total)%Z) (Htarget : (0 < target)%Z) :
  downsample_factor target total = Z.max 1 (total / target) /\
  ((total <= target)%Z -> downsample_factor target total = 1%Z) /\
  ((total_samples f <= target_points)%Z -> i < num_channels f ->
   factor_of f = 1 /\
   windows_of f i = map (fun s => [s]) (column i (frames_data f)) /\
   exists st,
     reduce_stream f = Ok st /\
     nth i (downsampled_data st) [] =
       flat_map (fun s => [s; s]) (column i (frames_data f)) /\
     nth i (clipped_status st) [] =
       flat_map (fun s => [Qle_bool clip_threshold (Qabs s);
                           Qle_bool clip_threshold (Qabs s)])
                (column i (frames_data f))).
Proof.
  split; [|split].
  - unfold downsample_factor.
    destruct (Z.gtb_spec total target) as [Hgt|Hle].
    + assert (1 <= total / target)%Z by (apply Z.div_le_lower_bound; lia). lia.
    + assert (total / target <= 1)%Z.
      { apply Z.div_le_upper_bound; lia. }
      lia.
  - intros Hle. unfold downsample_factor.
    destruct (Z.gtb_spec total target); [lia | reflexivity].
  - intros Hsmall Hi.
    pose proof (small_file_factor f Hsmall) as Hfac.
    assert (windows_of f i = map (fun s => [s]) (column i (frames_data f))) as Hw.
    { unfold windows_of. rewrite Hfac. apply singleton_windows, chunk_of_pos. }
    split; [exact Hfac|]. split; [exact Hw|].
    exists (blocked_state clip_threshold (factor_of f) (chunk_of f) f).
    split; [apply reduce_stream_eq|].
    unfold blocked_state. simpl. rewrite !nth_rows_of by assumption.
    fold (windows_of f i). rewrite Hw, !flat_map_map. split.
    + reflexivity.
    + apply flat_map_ext. intros s.
      unfold flags_of_window, is_clipped, np_any, np_ge, np_abs. simpl.
      now rewrite orb_false_r.
Qed.




(** ** The time axis *)

Lemma linspace_length (a b : Q) (n : nat) : length (linspace a b n) = n.
Proof.
  destruct n as [|[|m]]; try reflexivity.
  unfold linspace. rewrite length_app, length_map, length_seq. simpl. lia.
Qed.

Lemma linspace_nth_inner (a b : Q) (m k : nat) :
  k < S m ->
  nth k (linspace a b (S (S m))) 0%Q =
  (inject_Z (Z.of_nat k) * ((b - a) / inject_Z (Z.of_nat (S m))) + a)%Q.
Proof.
  intros Hk. unfold linspace.
  rewrite app_nth1 by (now rewrite length_map, length_seq).
  set (g := fun k : nat =>
              (inject_Z (Z.of_nat k) * ((b - a) / inject_Z (Z.of_nat (S m))) + a)%Q).
  rewrite (nth_indep _ 0%Q (g 0)) by (now rewrite length_map, length_seq).
  rewrite (map_nth g (seq 0 (S m)) 0 k). now rewrite seq_nth.
Qed.

Lemma linspace_nth_last (a b : Q) (m : nat) :
  nth (S m) (linspace a b (S (S m))) 0%Q = b.
Proof.
  unfold linspace.
  rewrite app_nth2 by (rewrite length_map, length_seq; lia).
  rewrite length_map, length_seq, Nat.sub_diag. reflexivity.
Qed.








Lemma index_ok {A : Type} (xs : list A) (i : nat) (d : A) :
  i < length xs -> index xs i = Ok (nth i xs d).
Proof.
  intros Hi. unfold index. now rewrite (nth_error_nth' xs d Hi).
Qed.

Lemma index_last_ok {A : Type} (xs : list A) (d : A) :
  1 <= length xs -> index_last xs = Ok (nth (length xs - 1) xs d).
Proof.
  intros H. destruct xs as [|x xs]; [simpl in H; lia|].
  unfold index_last. apply index_ok. simpl. lia.
Qed.

Lemma num_channels_pos (f : SoundFile) : 1 <= num_channels f.
Proof. unfold num_channels. lia. Qed.

Lemma time_axis_eq (f : SoundFile) (st : reducer_state) :
  1 <= length (downsampled_data st) ->
  time_axis f st =
  Ok (linspace 0 (total_duration f) (length (nth 0 (downsampled_data st) []))).
Proof.
  intros H. unfold time_axis. now rewrite (index_ok _ 0 []) by lia.
Qed.

Lemma nonempty_stream_windows (f : SoundFile) :
  frames_data f <> [] ->
  1 <= windows_emitted (factor_of f) (chunk_of f) (length (frames_data f)).
Proof.
  intros Hne. rewrite <- (emitted_windows_length _ _ f 0).
  pose proof (concat_emitted_windows (factor_of f) (chunk_of f) f 0
                (factor_of_pos f) (chunk_of_pos f)) as Hcat.
  destruct (emitted_windows (factor_of f) (chunk_of f) f 0) as [|w ws].
  - simpl in Hcat. destruct (frames_data f); [congruence | discriminate].
  - simpl. lia.
Qed.



(** ** The whole run *)

Lemma visualize_waveform_run (f : SoundFile) (w : world) :
  visualize_waveform (Some f) w =
  match build_figure f (blocked_state clip_threshold (factor_of f) (chunk_of f) f) with
  | Ok fig =>
      ({| stdout := stdout w ++ [ReadingChunks; PlottingWaveforms; SuccessfullyGenerated];
          output_png := Some fig |}, Ok tt)
  | Raise e =>
      ({| stdout := stdout w ++ [ReadingChunks; PlottingWaveforms; AnErrorOccurred e];
          output_png := output_png w |}, Ok tt)
  end.
Proof.
  unfold visualize_waveform, try_except, waveform_body, seq_cmd, lift, print, savefig.
  rewrite reduce_stream_eq. simpl.
  destruct (build_figure f _) as [fig|e]; simpl; now rewrite <- !app_assoc.
Qed.

Lemma empty_stream_state (f : SoundFile) :
  frames_data f = [] ->
  blocked_state clip_threshold (factor_of f) (chunk_of f) f = init_state (num_channels f).
Proof.
  intros He. unfold blocked_state, emitted_windows, blocks, init_state.
  rewrite He, chunks_nil, !repeat_rows_of. reflexivity.
Qed.

Lemma empty_stream_figure (f : SoundFile) :
  frames_data f = [] ->
  build_figure f (init_state (num_channels f)) = Raise IndexError.
Proof.
  intros He. unfold build_figure, time_axis, init_state. simpl.
  destruct (Pos2Nat.is_succ (channels f)) as [m Hm].
  unfold num_channels. rewrite Hm. reflexivity.
Qed.

Lemma where_nan_same_length (cond : list bool) (data : list Q) :
  length cond = length data ->
  where_nan cond data =
  Ok (map (fun cv : bool * Q => if fst cv then None else Some (snd cv))
          (combine cond data)).
Proof. intros H. unfold where_nan. now rewrite H, Nat.eqb_refl. Qed.

Lemma plot_channel_ok (time : list Q) (st : reducer_state) (acc : list axes_plot)
  (i : nat) :
  1 <= length time ->
  i < length (downsampled_data st) ->
  i < length (clipped_status st) ->
  length (nth i (downsampled_data st) []) = length time ->
  length (nth i (clipped_status st) []) = length time ->
  plot_channel time st acc i = Ok (acc ++ [axes_for time st i]).
Proof.
  intros Ht Hd Hc Ld Lc. unfold plot_channel.
  rewrite (index_ok time 0 0%Q) by lia.
  rewrite (index_last_ok time 0%Q) by lia.
  rewrite (index_ok (downsampled_data st) i []) by assumption.
  rewrite (index_ok (clipped_status st) i []) by assumption.
  cbn [bind].
  rewrite where_nan_same_length by lia.
  rewrite where_nan_same_length by (rewrite length_map; lia).
  cbn [bind]. unfold ax_plot.
  rewrite !length_map, !length_combine, !length_map, Ld, Lc, Nat.min_id, Nat.eqb_refl.
  reflexivity.
Qed.

Lemma plot_channels_ok (time : list Q) (st : reducer_state) (m : nat)
  (acc : list axes_plot) :
  1 <= length time ->
  m <= length (downsampled_data st) ->
  m <= length (clipped_status st) ->
  (forall i, i < m ->
     length (nth i (downsampled_data st) []) = length time /\
     length (nth i (clipped_status st) []) = length time) ->
  for_each (plot_channel time st) (seq 0 m) acc =
  Ok (acc ++ map (axes_for time st) (seq 0 m)).
Proof.
  intros Ht. induction m as [|m IH]; intros Hd Hc Hrows.
  - simpl. now rewrite app_nil_r.
  - rewrite seq_S, for_each_app, IH; try lia.
    + cbn [bind for_each Nat.add].
      destruct (Hrows m (Nat.lt_succ_diag_r m)) as [Ld Lc].
      rewrite plot_channel_ok by (assumption || lia).
      cbn [bind]. now rewrite map_app, app_assoc.
    + intros i Hi. apply Hrows. lia.
Qed.

(** A stream with frames is plotted: the run builds the figure of the
    reducer's result and saves it. *)
Lemma nonempty_stream_figure (f : SoundFile) :
  frames_data f <> [] ->
  exists st,
    reduce_stream f = Ok st /\ build_figure f st = Ok (figure_for f st).
Proof.
  intros Hne.
  destruct (reduce_stream_lengths f) as [st [Hrun [Hd [Hc Hrows]]]].
  exists st. split; [exact Hrun|].
  pose proof (nonempty_stream_windows f Hne) as Hw.
  pose proof (num_channels_pos f) as Hn.
  unfold build_figure. rewrite time_axis_eq by lia. cbn [bind].
  rewrite plot_channels_ok.
  - reflexivity.
  - rewrite linspace_length. destruct (Hrows 0 Hn) as [H0 _]. lia.
  - lia.
  - lia.
  - intros i Hi. rewrite linspace_length.
    destruct (Hrows 0 Hn) as [H0 _]. destruct (Hrows i Hi) as [Hdi Hci]. lia.
Qed.


(** C7, as the program behaves.  On a stream without frames the reducer
    returns empty channels; building the plot then raises [IndexError] at the
    first element of the empty time axis, which [visualize_waveform] catches
    and reports by printing.  No image is saved and the call returns
    normally. *)
Theorem empty_stream_reported (f : SoundFile) (w : world)
  (He : frames_data f = []) :
  reduce_stream f = Ok (init_state (num_channels f)) /\
  build_figure f (init_state (num_channels f)) = Raise IndexError /\
  visualize_waveform (Some f) w =
  ({| stdout := stdout w ++ [ReadingChunks; PlottingWaveforms;
                             AnErrorOccurred IndexError];
      output_png := output_png w |}, Ok tt).
Proof.
  split; [|split].
  - rewrite reduce_stream_eq. now rewrite empty_stream_state.
  - now apply empty_stream_figure.
  - rewrite visualize_waveform_run, empty_stream_state by assumption.
    now rewrite empty_stream_figure.
Qed.

(** C7 as stated fails: on the empty file no error reaches the caller, and
    the failure is printed. *)
Lemma empty_stream_not_raised :
  total_samples empty_file = 0%Z /\
  ~ (exists e, snd (visualize_waveform (Some empty_file) empty_world) = Raise e) /\
  In (AnErrorOccurred IndexError)
     (stdout (fst (visualize_waveform (Some empty_file) empty_world))).
Proof.
  split; [reflexivity|]. split.
  - intros [e H]. vm_compute in H. discriminate H.
  - vm_compute. auto.
Qed.


(** ** The theorems at concrete inputs *)

Lemma window_max_then_min_witness :
  0 < num_channels two_samples /\
  exists st,
    reduce_stream two_samples = Ok st /\
    nth 0 (downsampled_data st) [] =
      flat_map points_of_window (windows_of two_samples 0) /\
    concat (windows_of two_samples 0) = column 0 (frames_data two_samples) /\
    Forall (fun w =>
              exists hi lo,
                points_of_window w = [hi; lo] /\
                np_max w = Ok hi /\ np_min w = Ok lo /\
                (lo <= hi)%Q /\ In hi w /\ In lo w /\
                (forall s, In s w -> (lo <= s <= hi)%Q))
           (windows_of two_samples 0).
Proof.
  split.
  - vm_compute. lia.
  - apply (window_max_then_min two_samples 0). vm_compute. lia.
Defined.


Lemma downsample_factor_clamped_witness :
  (0 <= 7)%Z /\ (0 < 50000)%Z /\ (7 <= 50000)%Z /\
  (total_samples two_samples <= target_points)%Z /\
  0 < num_channels two_samples /\
  downsample_factor 50000 7 = Z.max 1 (7 / 50000) /\
  downsample_factor 50000 7 = 1%Z /\
  factor_of two_samples = 1 /\
  windows_of two_samples 0 = map (fun s => [s]) (column 0 (frames_data two_samples)) /\
  exists st,
    reduce_stream two_samples = Ok st /\
    nth 0 (downsampled_data st) [] =
      flat_map (fun s => [s; s]) (column 0 (frames_data two_samples)) /\
    nth 0 (clipped_status st) [] =
      flat_map (fun s => [Qle_bool clip_threshold (Qabs s);
                          Qle_bool clip_threshold (Qabs s)])
               (column 0 (frames_data two_samples)).
Proof.
  assert (0 <= 7)%Z as H1 by lia.
  assert (0 < 50000)%Z as H2 by lia.
  assert (7 <= 50000)%Z as H3 by lia.
  assert (total_samples two_samples <= target_points)%Z as H4
    by (vm_compute; discriminate).
  assert (0 < num_channels two_samples) as H5 by (vm_compute; lia).
  destruct (downsample_factor_clamped 50000 7 two_samples 0 H1 H2) as [A [B C]].
  destruct (C H4 H5) as [C1 [C2 C3]].
  split; [exact H1|]. split; [exact H2|]. split; [exact H3|].
  split; [exact H4|]. split; [exact H5|]. split; [exact A|].
  split; [exact (B H3)|]. split; [exact C1|]. split; [exact C2 | exact C3].
Defined.


Lemma empty_stream_reported_witness :
  frames_data empty_file = [] /\
  reduce_stream empty_file = Ok (init_state (num_channels empty_file)) /\
  build_figure empty_file (init_state (num_channels empty_file)) = Raise IndexError /\
  visualize_waveform (Some empty_file) empty_world =
  ({| stdout := stdout empty_world ++ [ReadingChunks; PlottingWaveforms;
                                       AnErrorOccurred IndexError];
      output_png := output_png empty_world |}, Ok tt).
Proof.
  split.
  - reflexivity.
  - apply (empty_stream_reported empty_file empty_world). reflexivity.
Defined.

(** * Further properties of [visualize_waveform] *)

(** ** Lengths of the channels *)

Lemma windows_emitted_blocks (f : SoundFile) (factor chunk : nat) :
  windows_emitted factor chunk (length (frames_data f)) =
  list_sum (map (fun block => range_len 0 (length block) factor) (blocks f chunk)).
Proof.
  unfold windows_emitted. rewrite <- blocks_lengths, map_map. reflexivity.
Qed.

(** The reducer never raises, and every channel gets two values and two
    flags per window, the windows counted block by block: each block of
    [n] frames contributes the ceiling of [n / factor] windows.  Any two
    channels therefore have the same length. *)
Theorem channels_same_length (f : SoundFile) (i j : nat)
  (Hi : i < num_channels f) (Hj : j < num_channels f) :
  exists st,
    reduce_stream f = Ok st /\
    length (nth i (downsampled_data st) []) =
      2 * list_sum (map (fun block => range_len 0 (length block) (factor_of f))
                        (blocks f (chunk_of f))) /\
    length (nth i (clipped_status st) []) = length (nth i (downsampled_data st) []) /\
    length (nth j (downsampled_data st) []) = length (nth i (downsampled_data st) []).
Proof.
  destruct (reduce_stream_lengths f) as [st [Hrun [_ [_ Hrows]]]].
  exists st. split; [exact Hrun|].
  destruct (Hrows i Hi) as [Hdi Hci]. destruct (Hrows j Hj) as [Hdj _].
  rewrite <- windows_emitted_blocks. repeat split; lia.
Qed.

(** ** The envelope *)

Lemma points_of_window_in (w : list Q) (v : Q) :
  In v (points_of_window w) -> In v w.
Proof.
  destruct w as [|x rest]; simpl; [tauto|].
  intros [<-|[<-|[]]]; [apply amax_in | apply amin_in].
Qed.

(** Downsampling invents no value and hides no peak: every value emitted
    for a channel is one of its samples, and every sample of the channel lies
    between two emitted values, the minimum and the maximum of its window. *)
Theorem envelope_encloses_signal (f : SoundFile) (i : nat) (Hi : i < num_channels f) :
  exists st,
    reduce_stream f = Ok st /\
    (forall v, In v (nth i (downsampled_data st) []) ->
               In v (column i (frames_data f))) /\
    (forall s, In s (column i (frames_data f)) ->
       exists hi lo,
         In hi (nth i (downsampled_data st) []) /\
         In lo (nth i (downsampled_data st) []) /\
         (lo <= s <= hi)%Q).
Proof.
  exists (blocked_state clip_threshold (factor_of f) (chunk_of f) f).
  split; [apply reduce_stream_eq|].
  unfold blocked_state. simpl. rewrite nth_rows_of by assumption.
  pose proof (factor_of_pos f) as Hf. split.
  - intros v Hv. apply in_flat_map in Hv. destruct Hv as [w [Hw Hv]].
    apply points_of_window_in in Hv.
    destruct (emitted_windows_in _ _ _ _ _ Hf Hw) as [_ Hin]. now apply Hin.
  - intros s Hs.
    rewrite <- (concat_emitted_windows (factor_of f) (chunk_of f) f i Hf
                  (chunk_of_pos f)) in Hs.
    apply in_concat in Hs. destruct Hs as [w [Hw Hs]].
    destruct w as [|x rest]; [destruct Hs|].
    exists (amax x rest), (amin x rest). repeat split.
    + apply in_flat_map. exists (x :: rest). split; [exact Hw | now left].
    + apply in_flat_map. exists (x :: rest). split; [exact Hw | right; now left].
    + now apply amin_lower.
    + now apply amax_upper.
Qed.



(** ** When blocking does not show *)

Lemma single_block_windows (factor chunk : nat) (f : SoundFile) (i : nat) :
  1 <= chunk -> length (frames_data f) <= chunk ->
  emitted_windows factor chunk f i = chunks factor (column i (frames_data f)).
Proof.
  intros Hc Hlen. unfold emitted_windows, blocks.
  destruct (frames_data f) as [|fr frames] eqn:E.
  - rewrite chunks_nil. change (column i []) with (@nil Q). now rewrite chunks_nil.
  - rewrite chunks_short by (simpl in *; lia). simpl. now rewrite app_nil_r.
Qed.

Lemma range_len_Z (n k : nat) :
  1 <= k ->
  Z.of_nat (range_len 0 n k) = ((Z.of_nat n + Z.of_nat k - 1) / Z.of_nat k)%Z.
Proof.
  intros Hk. unfold range_len.
  replace (n - 0 + k - 1) with (n + (k - 1)) by lia.
  rewrite Nat2Z.inj_div, Nat2Z.inj_add, Nat2Z.inj_sub by lia.
  f_equal. lia.
Qed.

Lemma factor_of_Z (f : SoundFile) :
  Z.of_nat (factor_of f) = downsample_factor target_points (total_samples f).
Proof.
  unfold factor_of. apply Z2Nat.id.
  pose proof (factor_pos target_points (total_samples f) eq_refl). lia.
Qed.

(** When the block size is a multiple of the factor, or the whole stream
    fits in one block (at most five seconds of audio), the program computes
    the unblocked reference, and every channel has twice the ceiling of
    [total_frames / downsample_factor] points. *)
Theorem aligned_run_is_reference (f : SoundFile) (i : nat)
  (Hi : i < num_channels f)
  (H : Nat.divide (factor_of f) (chunk_of f) \/
       length (frames_data f) <= chunk_of f) :
  exists st,
    reduce_stream f = Ok st /\
    series st = unblocked_reference clip_threshold (factor_of f) f /\
    Z.of_nat (length (nth i (downsampled_data st) [])) = promised_length f.
Proof.
  pose proof (factor_of_pos f) as Hf. pose proof (chunk_of_pos f) as Hc.
  assert (forall k, emitted_windows (factor_of f) (chunk_of f) f k =
                    chunks (factor_of f) (column k (frames_data f))) as Hw.
  { intros k. destruct H as [[m Hm]|Hlen].
    - apply (aligned_windows (factor_of f) m); try assumption. nia.
    - now apply single_block_windows. }
  exists (blocked_state clip_threshold (factor_of f) (chunk_of f) f).
  split; [apply reduce_stream_eq|]. split.
  - rewrite series_blocked_state. unfold unblocked_reference, rows_of.
    apply map_ext. intros k. now rewrite Hw, reference_channel_chunks.
  - unfold blocked_state. simpl. rewrite nth_rows_of by assumption.
    rewrite points_length by assumption.
    rewrite <- (emitted_windows_length _ _ f i), Hw, chunks_length, column_length.
    rewrite Nat2Z.inj_mul, range_len_Z by assumption.
    unfold promised_length. rewrite factor_of_Z. reflexivity.
Qed.

(** ** Files shorter than twice the target *)

Lemma factor_one_iff (f : SoundFile) :
  factor_of f = 1 <-> (total_samples f < 2 * target_points)%Z.
Proof.
  pose proof (factor_of_Z f) as HZ.
  assert (0 <= total_samples f)%Z as Hnn by (unfold total_samples; lia).
  pose proof (Z.div_mod (total_samples f) 50000 ltac:(lia)) as Hdiv.
  pose proof (Z.mod_pos_bound (total_samples f) 50000 ltac:(lia)) as Hmod.
  unfold downsample_factor, target_points in *. revert HZ.
  destruct (Z.gtb_spec (total_samples f) 50000); cbv iota; intros HZ; lia.
Qed.

(** The factor stays 1 until the stream has twice the target number of
    frames: every shorter file is not reduced at all, each sample appearing
    twice, so a channel can have almost four times the target in points. *)
Theorem no_reduction_below_twice_target (f : SoundFile) (i : nat)
  (Hi : i < num_channels f) :
  (factor_of f = 1 <-> (total_samples f < 2 * target_points)%Z) /\
  ((total_samples f < 2 * target_points)%Z ->
   exists st,
     reduce_stream f = Ok st /\
     nth i (downsampled_data st) [] =
       flat_map (fun s => [s; s]) (column i (frames_data f)) /\
     length (nth i (downsampled_data st) []) = 2 * length (frames_data f)).
Proof.
  split; [apply factor_one_iff|].
  intros Hsmall. apply factor_one_iff in Hsmall.
  exists (blocked_state clip_threshold (factor_of f) (chunk_of f) f).
  split; [apply reduce_stream_eq|].
  unfold blocked_state. simpl. rewrite nth_rows_of by assumption.
  rewrite Hsmall, singleton_windows, flat_map_map by apply chunk_of_pos.
  split; [reflexivity|].
  rewrite (flat_map_length_const (fun s : Q => [s; s]) 2).
  - now rewrite column_length.
  - apply Forall_forall. reflexivity.
Qed.

(** ** Channels do not influence each other *)

Lemma column_slice (i a b : nat) (frames : list (list Q)) :
  column i (slice a b frames) = slice a b (column i frames).
Proof. unfold column, slice. now rewrite skipn_map, firstn_map. Qed.

Lemma emitted_windows_column (factor chunk : nat) (f : SoundFile) (i : nat) :
  emitted_windows factor chunk f i =
  flat_map (chunks factor) (chunks chunk (column i (frames_data f))).
Proof.
  unfold emitted_windows, blocks. unfold chunks at 2 4.
  rewrite !flat_map_map, column_length.
  apply flat_map_ext. intros k. now rewrite column_slice.
Qed.

(** The points of a channel depend only on the samples of that channel and
    on the sample rate: two files of the same rate that agree on channel [i]
    get the same values and flags for it, whatever their other channels
    hold. *)
Theorem channels_are_independent (f1 f2 : SoundFile) (i : nat)
  (Hi1 : i < num_channels f1) (Hi2 : i < num_channels f2)
  (Hrate : samplerate f1 = samplerate f2)
  (Hcol : column i (frames_data f1) = column i (frames_data f2)) :
  exists st1 st2,
    reduce_stream f1 = Ok st1 /\
    reduce_stream f2 = Ok st2 /\
    nth i (downsampled_data st1) [] = nth i (downsampled_data st2) [] /\
    nth i (clipped_status st1) [] = nth i (clipped_status st2) [].
Proof.
  exists (blocked_state clip_threshold (factor_of f1) (chunk_of f1) f1),
         (blocked_state clip_threshold (factor_of f2) (chunk_of f2) f2).
  split; [apply reduce_stream_eq|]. split; [apply reduce_stream_eq|].
  assert (length (frames_data f1) = length (frames_data f2)) as Hlen.
  { rewrite <- (column_length i (frames_data f1)), Hcol. apply column_length. }
  assert (factor_of f1 = factor_of f2) as Hfac.
  { unfold factor_of, total_samples. now rewrite Hlen. }
  assert (chunk_of f1 = chunk_of f2) as Hchunk.
  { unfold chunk_of, chunk_size_samples. now rewrite Hrate. }
  unfold blocked_state. simpl. rewrite !nth_rows_of by assumption.
  rewrite !emitted_windows_column, Hfac, Hchunk, Hcol. split; reflexivity.
Qed.

(** ** How many windows *)

Lemma ceil_covers (n k : nat) : 1 <= k -> n <= k * range_len 0 n k.
Proof.
  intros Hk. unfold range_len.
  pose proof (Nat.div_mod_eq (n - 0 + k - 1) k) as E.
  pose proof (Nat.mod_upper_bound (n - 0 + k - 1) k ltac:(lia)) as Hr.
  lia.
Qed.

Lemma ceil_le_floor_succ (n k : nat) : 1 <= k -> range_len 0 n k <= n / k + 1.
Proof.
  intros Hk. unfold range_len.
  rewrite <- (Nat.div_add n 1 k) by lia.
  apply Nat.Div0.div_le_mono. lia.
Qed.

Lemma div_add_le (a b k : nat) : 1 <= k -> a / k + b / k <= (a + b) / k.
Proof.
  intros Hk. apply Nat.div_le_lower_bound; [lia|].
  pose proof (Nat.Div0.mul_div_le a k). pose proof (Nat.Div0.mul_div_le b k). lia.
Qed.

Lemma sum_ceil_upper (k : nat) (ls : list nat) :
  1 <= k ->
  list_sum (map (fun n => range_len 0 n k) ls) <= list_sum ls / k + length ls.
Proof.
  intros Hk. induction ls as [|a ls IH]; simpl.
  - lia.
  - pose proof (ceil_le_floor_succ a k Hk).
    pose proof (div_add_le a (list_sum ls) k Hk). lia.
Qed.

Lemma sum_ceil_lower (k : nat) (ls : list nat) :
  1 <= k ->
  list_sum ls <= k * list_sum (map (fun n => range_len 0 n k) ls).
Proof.
  intros Hk. induction ls as [|a ls IH]; simpl.
  - lia.
  - pose proof (ceil_covers a k Hk). lia.
Qed.

Lemma block_lengths_sum (f : SoundFile) (chunk : nat) :
  1 <= chunk ->
  list_sum (block_lengths chunk (length (frames_data f))) = length (frames_data f).
Proof.
  intros Hc. rewrite <- blocks_lengths, <- length_concat.
  unfold blocks. now rewrite concat_chunks.
Qed.

Lemma floor_quotient_bounds (f : SoundFile) :
  (Z.of_nat (length (frames_data f) / factor_of f) <= 2 * target_points - 1)%Z /\
  ((target_points <= total_samples f)%Z ->
   (target_points <= Z.of_nat (length (frames_data f) / factor_of f))%Z).
Proof.
  rewrite Nat2Z.inj_div, factor_of_Z. fold (total_samples f).
  assert (0 <= total_samples f)%Z as Hnn by (unfold total_samples; lia).
  unfold downsample_factor, target_points.
  pose proof (Z.div_mod (total_samples f) 50000 ltac:(lia)) as Hdiv.
  pose proof (Z.mod_pos_bound (total_samples f) 50000 ltac:(lia)) as Hmod.
  destruct (Z.gtb_spec (total_samples f) 50000) as [Hgt|Hle].
  - assert (1 <= total_samples f / 50000)%Z as Hq by lia.
    split.
    + assert (total_samples f / (total_samples f / 50000) < 100000)%Z; [|lia].
      apply Z.div_lt_upper_bound; lia.
    + intros _. apply Z.div_le_lower_bound; lia.
  - rewrite Z.div_1_r. lia.
Qed.

(** The number of windows per channel is at least the ceiling of
    [total_frames / downsample_factor] and exceeds the floor by at most one
    per block.  So a channel has fewer than four times the target in points,
    plus two per block read, and at least twice the target once the stream
    has that many frames. *)
Theorem window_count_bounds (f : SoundFile) (i : nat) (Hi : i < num_channels f) :
  exists st W,
    reduce_stream f = Ok st /\
    length (nth i (downsampled_data st) []) = 2 * W /\
    length (blocks f (chunk_of f)) = range_len 0 (length (frames_data f)) (chunk_of f) /\
    range_len 0 (length (frames_data f)) (factor_of f) <= W /\
    W <= length (frames_data f) / factor_of f + length (blocks f (chunk_of f)) /\
    (Z.of_nat W <= 2 * target_points - 1 + Z.of_nat (length (blocks f (chunk_of f))))%Z /\
    ((target_points <= total_samples f)%Z -> (target_points <= Z.of_nat W)%Z).
Proof.
  pose proof (factor_of_pos f) as Hf. pose proof (chunk_of_pos f) as Hc.
  destruct (reduce_stream_lengths f) as [st [Hrun [_ [_ Hrows]]]].
  destruct (Hrows i Hi) as [Hd _].
  set (W := windows_emitted (factor_of f) (chunk_of f) (length (frames_data f))) in *.
  exists st, W. split; [exact Hrun|]. split; [exact Hd|].
  assert (length (blocks f (chunk_of f)) =
          length (block_lengths (chunk_of f) (length (frames_data f)))) as Hblocks.
  { rewrite <- blocks_lengths. now rewrite length_map. }
  pose proof (sum_ceil_upper (factor_of f)
                (block_lengths (chunk_of f) (length (frames_data f))) Hf) as Hup.
  pose proof (sum_ceil_lower (factor_of f)
                (block_lengths (chunk_of f) (length (frames_data f))) Hf) as Hlow.
  rewrite block_lengths_sum in Hup, Hlow by assumption.
  fold (windows_emitted (factor_of f) (chunk_of f) (length (frames_data f))) in Hup, Hlow.
  fold W in Hup, Hlow. rewrite <- Hblocks in Hup.
  destruct (floor_quotient_bounds f) as [Hmax Hmin].
  assert (range_len 0 (length (frames_data f)) (factor_of f) <= W) as Hceil.
  { unfold range_len.
    assert ((length (frames_data f) - 0 + factor_of f - 1) / factor_of f < W + 1);
      [|lia].
    apply Nat.Div0.div_lt_upper_bound. lia. }
  split; [unfold blocks; apply chunks_length|].
  split; [exact Hceil|]. split; [exact Hup|]. split; [lia|].
  intros Hlong. specialize (Hmin Hlong).
  assert (length (frames_data f) / factor_of f <=
          range_len 0 (length (frames_data f)) (factor_of f)).
  { unfold range_len. apply Nat.Div0.div_le_mono. lia. }
  lia.
Qed.

(** ** What a run leaves behind *)


Lemma nth_map_combine {A B C : Type} (g : A * B -> C) (a : list A) (b : list B)
  (k : nat) (da : A) (db : B) (dc : C) :
  length a = length b -> k < length a ->
  nth k (map g (combine a b)) dc = g (nth k a da, nth k b db).
Proof.
  intros Hlen Hk.
  rewrite (nth_indep _ dc (g (da, db)))
    by (rewrite length_map, length_combine; lia).
  rewrite (map_nth g). now rewrite combine_nth.
Qed.

Lemma nth_error_seq (n i : nat) : i < n -> nth_error (seq 0 n) i = Some i.
Proof.
  intros Hi. rewrite (nth_error_nth' (seq 0 n) 0) by (now rewrite length_seq).
  now rewrite seq_nth.
Qed.

(** The plot of a stream with frames has one pair of lines per channel,
    over the whole time axis from 0 to the duration: each point of the
    channel is drawn on exactly one of the two lines, the red (clipped) one
    when its flag is set and the grey one otherwise, and is not-a-number on
    the other. *)
Theorem plotted_lines_partition (f : SoundFile) (i : nat)
  (Hne : frames_data f <> []) (Hi : i < num_channels f) :
  exists st ax,
    reduce_stream f = Ok st /\
    build_figure f st = Ok (figure_for f st) /\
    length (axes (figure_for f st)) = num_channels f /\
    nth_error (axes (figure_for f st)) i = Some ax /\
    (fst (xlim ax) == 0)%Q /\
    snd (xlim ax) = total_duration f /\
    length (time_downsampled (figure_for f st)) =
      length (nth i (downsampled_data st) []) /\
    length (non_clipped_data ax) = length (nth i (downsampled_data st) []) /\
    length (clipped_data ax) = length (nth i (downsampled_data st) []) /\
    forall k, k < length (nth i (downsampled_data st) []) ->
      nth k (non_clipped_data ax) None =
        (if nth k (nth i (clipped_status st) []) false
         then None else Some (nth k (nth i (downsampled_data st) []) 0%Q)) /\
      nth k (clipped_data ax) None =
        (if nth k (nth i (clipped_status st) []) false
         then Some (nth k (nth i (downsampled_data st) []) 0%Q) else None).
Proof.
  destruct (nonempty_stream_figure f Hne) as [st [Hrun Hfig]].
  destruct (reduce_stream_lengths f) as [st' [Hrun' [_ [_ Hrows]]]].
  rewrite Hrun in Hrun'. injection Hrun' as <-.
  pose proof (nonempty_stream_windows f Hne) as Hw.
  destruct (Hrows 0 (num_channels_pos f)) as [H0 _].
  destruct (Hrows i Hi) as [Hdi Hci].
  set (time := linspace 0 (total_duration f)
                        (length (nth 0 (downsampled_data st) []))).
  exists st, (axes_for time st i).
  split; [exact Hrun|]. split; [exact Hfig|].
  unfold figure_for. cbn [axes time_downsampled]. fold time.
  assert (length time = length (nth i (downsampled_data st) [])) as Htime.
  { unfold time. rewrite linspace_length. lia. }
  split; [now rewrite length_map, length_seq|].
  split; [apply map_nth_error, nth_error_seq; exact Hi|].
  unfold axes_for. cbn [xlim non_clipped_data clipped_data fst snd].
  destruct (length (nth 0 (downsampled_data st) [])) as [|[|m]] eqn:EN; try lia.
  split.
  { unfold time. rewrite linspace_nth_inner by lia. simpl inject_Z. ring. }
  split.
  { unfold time at 1. rewrite linspace_length.
    replace (S (S m) - 1) with (S m) by lia. unfold time.
    apply linspace_nth_last. }
  split; [exact Htime|].
  split; [rewrite length_map, length_combine; lia|].
  split; [rewrite length_map, length_combine, length_map; lia|].
  intros k Hk. split.
  - rewrite (nth_map_combine _ _ _ k false 0%Q) by lia. reflexivity.
  - rewrite (nth_map_combine _ _ _ k (negb false) 0%Q)
      by (rewrite length_map; lia).
    cbn [fst snd]. rewrite (map_nth negb).
    now destruct (nth k (nth i (clipped_status st) []) false).
Qed.

(** ** Short windows *)




(** ** Points in pairs *)

Lemma pairs_of_windows (threshold : Q) (ws : list (list Q)) (k : nat) :
  Forall (fun w => w <> []) ws -> k < length ws ->
  (nth (2 * k + 1) (flat_map points_of_window ws) 0 <=
   nth (2 * k) (flat_map points_of_window ws) 0)%Q /\
  nth (2 * k + 1) (flat_map (flags_of_window threshold) ws) false =
  nth (2 * k) (flat_map (flags_of_window threshold) ws) false.
Proof.
  intros Hne. revert k. induction Hne as [|w ws Hw _ IH]; intros k Hk.
  - simpl in Hk. lia.
  - destruct w as [|x rest]; [congruence|].
    destruct k as [|k].
    + simpl. split; [|reflexivity].
      apply Qle_trans with x; [apply amin_lower | apply amax_upper]; now left.
    + replace (2 * S k + 1) with (S (S (2 * k + 1))) by lia.
      replace (2 * S k) with (S (S (2 * k))) by lia.
      cbn [flat_map points_of_window flags_of_window app nth].
      apply IH. simpl in Hk. lia.
Qed.

(** The points of a channel come in pairs: for every window [k], the value
    at position [2k] is at least the value at position [2k+1], and the two
    positions carry the same clip flag. *)
Theorem points_come_in_pairs (f : SoundFile) (i k : nat)
  (Hi : i < num_channels f) (Hk : k < length (windows_of f i)) :
  exists st,
    reduce_stream f = Ok st /\
    length (nth i (downsampled_data st) []) = 2 * length (windows_of f i) /\
    (nth (2 * k + 1) (nth i (downsampled_data st) []) 0 <=
     nth (2 * k) (nth i (downsampled_data st) []) 0)%Q /\
    nth (2 * k + 1) (nth i (clipped_status st) []) false =
    nth (2 * k) (nth i (clipped_status st) []) false.
Proof.
  pose proof (factor_of_pos f) as Hf.
  exists (blocked_state clip_threshold (factor_of f) (chunk_of f) f).
  split; [apply reduce_stream_eq|].
  unfold blocked_state. simpl. rewrite !nth_rows_of by assumption.
  fold (windows_of f i). split.
  - unfold windows_of. rewrite points_length by assumption.
    now rewrite emitted_windows_length.
  - apply pairs_of_windows; [|exact Hk].
    apply nonempty_windows. exact Hf.
Qed.

(** ** The further properties at concrete inputs *)

Lemma channels_same_length_witness :
  0 < num_channels two_channels /\ 1 < num_channels two_channels /\
  exists st,
    reduce_stream two_channels = Ok st /\
    length (nth 0 (downsampled_data st) []) =
      2 * list_sum (map (fun block => range_len 0 (length block) (factor_of two_channels))
                        (blocks two_channels (chunk_of two_channels))) /\
    length (nth 0 (clipped_status st) []) = length (nth 0 (downsampled_data st) []) /\
    length (nth 1 (downsampled_data st) []) = length (nth 0 (downsampled_data st) []).
Proof.
  assert (0 < num_channels two_channels) as H0 by (vm_compute; lia).
  assert (1 < num_channels two_channels) as H1 by (vm_compute; lia).
  split; [exact H0|]. split; [exact H1|].
  exact (channels_same_length two_channels 0 1 H0 H1).
Defined.

Lemma envelope_encloses_signal_witness :
  0 < num_channels two_samples /\
  exists st,
    reduce_stream two_samples = Ok st /\
    (forall v, In v (nth 0 (downsampled_data st) []) ->
               In v (column 0 (frames_data two_samples))) /\
    (forall s, In s (column 0 (frames_data two_samples)) ->
       exists hi lo,
         In hi (nth 0 (downsampled_data st) []) /\
         In lo (nth 0 (downsampled_data st) []) /\
         (lo <= s <= hi)%Q).
Proof.
  assert (0 < num_channels two_samples) as H0 by (vm_compute; lia).
  split; [exact H0|].
  exact (envelope_encloses_signal two_samples 0 H0).
Defined.


Lemma aligned_run_is_reference_witness :
  0 < num_channels two_samples /\
  (Nat.divide (factor_of two_samples) (chunk_of two_samples) \/
   length (frames_data two_samples) <= chunk_of two_samples) /\
  exists st,
    reduce_stream two_samples = Ok st /\
    series st = unblocked_reference clip_threshold (factor_of two_samples) two_samples /\
    Z.of_nat (length (nth 0 (downsampled_data st) [])) = promised_length two_samples.
Proof.
  assert (0 < num_channels two_samples) as H0 by (vm_compute; lia).
  assert (Nat.divide (factor_of two_samples) (chunk_of two_samples) \/
          length (frames_data two_samples) <= chunk_of two_samples) as H1
    by (right; vm_compute; lia).
  split; [exact H0|]. split; [exact H1|].
  exact (aligned_run_is_reference two_samples 0 H0 H1).
Defined.

Lemma no_reduction_below_twice_target_witness :
  0 < num_channels two_samples /\
  (total_samples two_samples < 2 * target_points)%Z /\
  (factor_of two_samples = 1 <-> (total_samples two_samples < 2 * target_points)%Z) /\
  exists st,
    reduce_stream two_samples = Ok st /\
    nth 0 (downsampled_data st) [] =
      flat_map (fun s => [s; s]) (column 0 (frames_data two_samples)) /\
    length (nth 0 (downsampled_data st) []) = 2 * length (frames_data two_samples).
Proof.
  assert (0 < num_channels two_samples) as H0 by (vm_compute; lia).
  assert (total_samples two_samples < 2 * target_points)%Z as H1
    by (vm_compute; reflexivity).
  destruct (no_reduction_below_twice_target two_samples 0 H0) as [A B].
  split; [exact H0|]. split; [exact H1|]. split; [exact A | exact (B H1)].
Defined.

Lemma channels_are_independent_witness :
  0 < num_channels two_samples /\ 0 < num_channels two_channels /\
  samplerate two_samples = samplerate two_channels /\
  column 0 (frames_data two_samples) = column 0 (frames_data two_channels) /\
  exists st1 st2,
    reduce_stream two_samples = Ok st1 /\
    reduce_stream two_channels = Ok st2 /\
    nth 0 (downsampled_data st1) [] = nth 0 (downsampled_data st2) [] /\
    nth 0 (clipped_status st1) [] = nth 0 (clipped_status st2) [].
Proof.
  assert (0 < num_channels two_samples) as H0 by (vm_compute; lia).
  assert (0 < num_channels two_channels) as H1 by (vm_compute; lia).
  assert (samplerate two_samples = samplerate two_channels) as H2 by reflexivity.
  assert (column 0 (frames_data two_samples) = column 0 (frames_data two_channels))
    as H3 by reflexivity.
  split; [exact H0|]. split; [exact H1|]. split; [exact H2|]. split; [exact H3|].
  exact (channels_are_independent two_samples two_channels 0 H0 H1 H2 H3).
Defined.

Lemma window_count_bounds_witness :
  0 < num_channels silence_11025 /\
  (target_points <= total_samples silence_11025)%Z /\
  exists st W,
    reduce_stream silence_11025 = Ok st /\
    length (nth 0 (downsampled_data st) []) = 2 * W /\
    length (blocks silence_11025 (chunk_of silence_11025)) =
      range_len 0 (length (frames_data silence_11025)) (chunk_of silence_11025) /\
    range_len 0 (length (frames_data silence_11025)) (factor_of silence_11025) <= W /\
    W <= length (frames_data silence_11025) / factor_of silence_11025 +
         length (blocks silence_11025 (chunk_of silence_11025)) /\
    (Z.of_nat W <= 2 * target_points - 1 +
                   Z.of_nat (length (blocks silence_11025 (chunk_of silence_11025))))%Z /\
    (target_points <= Z.of_nat W)%Z.
Proof.
  assert (0 < num_channels silence_11025) as H0 by exact Nat.lt_0_1.
  assert (target_points <= total_samples silence_11025)%Z as H1.
  { unfold total_samples. rewrite (proj1 silence_11025_shape).
    vm_compute. discriminate. }
  split; [exact H0|]. split; [exact H1|].
  destruct (window_count_bounds silence_11025 0 H0)
    as [st [W [A [B [C [D [E [F G]]]]]]]].
  exists st, W. repeat (split; [assumption|]). exact (G H1).
Defined.

Lemma plotted_lines_partition_witness :
  frames_data two_samples <> [] /\ 0 < num_channels two_samples /\
  exists st ax,
    reduce_stream two_samples = Ok st /\
    build_figure two_samples st = Ok (figure_for two_samples st) /\
    length (axes (figure_for two_samples st)) = num_channels two_samples /\
    nth_error (axes (figure_for two_samples st)) 0 = Some ax /\
    (fst (xlim ax) == 0)%Q /\
    snd (xlim ax) = total_duration two_samples /\
    length (time_downsampled (figure_for two_samples st)) =
      length (nth 0 (downsampled_data st) []) /\
    length (non_clipped_data ax) = length (nth 0 (downsampled_data st) []) /\
    length (clipped_data ax) = length (nth 0 (downsampled_data st) []) /\
    forall k, k < length (nth 0 (downsampled_data st) []) ->
      nth k (non_clipped_data ax) None =
        (if nth k (nth 0 (clipped_status st) []) false
         then None else Some (nth k (nth 0 (downsampled_data st) []) 0%Q)) /\
      nth k (clipped_data ax) None =
        (if nth k (nth 0 (clipped_status st) []) false
         then Some (nth k (nth 0 (downsampled_data st) []) 0%Q) else None).
Proof.
  assert (frames_data two_samples <> []) as H0 by (intros E; discriminate E).
  assert (0 < num_channels two_samples) as H1 by (vm_compute; lia).
  split; [exact H0|]. split; [exact H1|].
  exact (plotted_lines_partition two_samples 0 H0 H1).
Defined.


Lemma points_come_in_pairs_witness :
  0 < num_channels two_samples /\ 1 < length (windows_of two_samples 0) /\
  exists st,
    reduce_stream two_samples = Ok st /\
    length (nth 0 (downsampled_data st) []) = 2 * length (windows_of two_samples 0) /\
    (nth (2 * 1 + 1) (nth 0 (downsampled_data st) []) 0 <=
     nth (2 * 1) (nth 0 (downsampled_data st) []) 0)%Q /\
    nth (2 * 1 + 1) (nth 0 (clipped_status st) []) false =
    nth (2 * 1) (nth 0 (clipped_status st) []) false.
Proof.
  assert (0 < num_channels two_samples) as H0 by (vm_compute; lia).
  assert (1 < length (windows_of two_samples 0)) as H1 by (vm_compute; lia).
  split; [exact H0|]. split; [exact H1|].
  exact (points_come_in_pairs two_samples 0 1 H0 H1).
Defined.
